(** * Context management core of the chat client

    A shallow embedding of [src/services/ConversationService.ts]
    (class [ConversationService] and the two static tables above it),
    followed by the properties its specification states about it.

    Modelling conventions.
    - A JavaScript string is the list of its UTF-16 code units, so that
      [length] is the source's [.length].
    - The numbers the service handles (string lengths, cached token
      counts, context limits, the [maxTokens] override) are integers;
      they are modelled in [Z].  The two places where the source leaves
      the integers, [text.length / 4] and [contextLimit * 0.8], are
      modelled with exact rationals ([Q]) and rounded with [Qceiling] and
      [Qfloor] as [Math.ceil] and [Math.floor] do.  (Division by 4 is
      exact in binary64, and for an integer limit below 2^50 in magnitude
      the rounded product [limit * 0.8] has the floor of the exact one.)
      [NaN], which arises when a non-number is multiplied, is the [None]
      of [option Z].
    - [MODEL_CONTEXT_LIMITS] is an object literal: its own properties are
      a finite map, and a read of a name it does not own falls through to
      [Object.prototype].
    - Optional fields and arguments ([tokens?], [systemPrompt?],
      [maxTokens?]) are [option]s, [None] standing for [undefined].
    - A [Date] is its time value in milliseconds, in [Z].
    - [AsyncStorage] is an explicit state, threaded through the
      operations that the source declares [async]. *)

From Stdlib Require Import ZArith QArith Qround Ascii String List Lia.
From stdpp Require Import gmap list.

Import ListNotations.
Local Open Scope Z_scope.

(** ** JavaScript strings *)

Module JsString.

(** One element per UTF-16 code unit. *)
Definition jsstring : Type := list N.

(** A string literal of the source, all of whose characters are ASCII. *)
Definition js (s : string) : jsstring :=
  map N_of_ascii (list_ascii_of_string s).

(** [String.prototype.length], as an integer. *)
Definition jslength (s : jsstring) : Z := Z.of_nat (length s).

(** [s === t] on strings. *)
Definition jseq (s t : jsstring) : bool := bool_decide (s = t).

(** [WhiteSpace] and [LineTerminator] code points of ECMA-262, the ones
    [String.prototype.trim] strips. *)
Definition is_trim_space (c : N) : bool :=
  match c with
  | 9 | 10 | 11 | 12 | 13 | 32 | 160 | 5760 | 8232 | 8233 | 8239 | 8287
  | 12288 | 65279 => true
  | _ => ((8192 <=? c) && (c <=? 8202))%N
  end%N.

Fixpoint trimStart (s : jsstring) : jsstring :=
  match s with
  | c :: rest => if is_trim_space c then trimStart rest else s
  | [] => []
  end.

Definition trimEnd (s : jsstring) : jsstring := rev (trimStart (rev s)).

(** [s.trim()] *)
Definition trim (s : jsstring) : jsstring := trimEnd (trimStart s).

(** [s.replace(/\n/g, ' ')]: every U+000A becomes U+0020. *)
Definition replace_newlines (s : jsstring) : jsstring :=
  map (fun c => if (c =? 10)%N then 32%N else c) s.

(** [s.substring(start, end)]: both arguments are clamped to
    [0 .. s.length] and swapped when [start > end]. *)
Definition substring (s : jsstring) (start stop : Z) : jsstring :=
  let len := jslength s in
  let finalStart := Z.min (Z.max start 0) len in
  let finalEnd := Z.min (Z.max stop 0) len in
  let from := Z.min finalStart finalEnd in
  let to := Z.max finalStart finalEnd in
  take (Z.to_nat (to - from)) (drop (Z.to_nat from) s).

End JsString.
Export JsString.

(** ** Numbers *)

(** [Math.ceil] and [Math.floor] on the exact value of their argument. *)
Definition Math_ceil (x : Q) : Z := Qceiling x.
Definition Math_floor (x : Q) : Z := Qfloor x.

(** ** Data model *)

Record StoredMessage : Type := {
  msg_id : jsstring;
  text : jsstring;
  isUser : bool;
  timestamp : Z;
  tokens : option Z
}.

Record Conversation : Type := {
  id : jsstring;
  title : jsstring;
  messages : list StoredMessage;
  providerId : jsstring;
  modelName : jsstring;
  systemPrompt : option jsstring;
  createdAt : Z;
  updatedAt : Z
}.

Record SystemPrompt : Type := {
  sp_id : jsstring;
  sp_name : jsstring;
  prompt : jsstring;
  isDefault : bool;
  sp_providerId : option jsstring;
  sp_modelName : option jsstring
}.

(** ** Token estimator *)

(** [Math.ceil(text.length / 4)] *)
Definition estimateTokens (text : jsstring) : Z :=
  Math_ceil (inject_Z (jslength text) / 4).

(** ** Values read from an object *)

(** What a property read [o[key]] on the capacity table can evaluate to:
    an own entry of the table, [undefined], or a member that every object
    literal inherits from [Object.prototype] (a function, or the prototype
    itself for [__proto__]). *)
Inductive JsValue : Type :=
| Undefined
| Number (n : Z)
| Inherited (name : jsstring).

(** [ToBoolean]: [undefined] and [0] are falsy, objects are truthy. *)
Definition truthy (v : JsValue) : bool :=
  match v with
  | Undefined => false
  | Number n => negb (n =? 0)
  | Inherited _ => true
  end.

(** [a || b] *)
Definition js_or (a b : JsValue) : JsValue := if truthy a then a else b.

(** [ToNumber]; [None] is [NaN]. *)
Definition to_number (v : JsValue) : option Z :=
  match v with
  | Number n => Some n
  | Undefined | Inherited _ => None
  end.

(** An optional numeric argument or field as a value. *)
Definition optional_number (o : option Z) : JsValue :=
  match o with
  | Some n => Number n
  | None => Undefined
  end.

(** [ToBoolean] on a string: only the empty string is falsy. *)
Definition truthy_string (s : jsstring) : bool :=
  match s with
  | [] => false
  | _ :: _ => true
  end.

(** Property names found on [Object.prototype] (ECMA-262, 20.1.3 and
    B.2.2). *)
Definition Object_prototype_keys : list jsstring :=
  map js
    [ "constructor"; "hasOwnProperty"; "isPrototypeOf";
      "propertyIsEnumerable"; "toLocaleString"; "toString"; "valueOf";
      "__proto__"; "__defineGetter__"; "__defineSetter__";
      "__lookupGetter__"; "__lookupSetter__" ]%string.

(** [o[key]] for an object literal [o] whose own properties are the
    entries of the map. *)
Definition get_property (o : gmap jsstring Z) (key : jsstring) : JsValue :=
  match o !! key with
  | Some n => Number n
  | None =>
      if bool_decide (key ∈ Object_prototype_keys) then Inherited key
      else Undefined
  end.

(** ** Static tables *)

(** Model context window limits (in tokens). *)
Definition MODEL_CONTEXT_LIMITS_entries : list (jsstring * Z) :=
  [ (js "gpt-4o", 128000);
    (js "gpt-4o-mini", 128000);
    (js "gpt-4-turbo", 128000);
    (js "gpt-4", 8192);
    (js "gpt-3.5-turbo", 4096);
    (js "claude-3-5-sonnet-20241022", 200000);
    (js "claude-3-5-haiku-20241022", 200000);
    (js "claude-3-opus-20240229", 200000);
    (js "claude-3-sonnet-20240229", 200000);
    (js "claude-3-haiku-20240307", 200000);
    (js "gemini-1.5-pro-latest", 2000000);
    (js "gemini-1.5-flash-latest", 1000000);
    (js "gemini-pro", 32000);
    (js "gemini-pro-vision", 16000);
    (js "llama-3.1-405b-reasoning", 32768);
    (js "llama-3.1-70b-versatile", 32768);
    (js "llama-3.1-8b-instant", 8192);
    (js "mixtral-8x7b-32768", 32768);
    (js "gemma2-9b-it", 8192) ].

Definition MODEL_CONTEXT_LIMITS : gmap jsstring Z :=
  list_to_map MODEL_CONTEXT_LIMITS_entries.

Definition built_in (i n p : string) : SystemPrompt :=
  {| sp_id := js i; sp_name := js n; prompt := js p; isDefault := true;
     sp_providerId := None; sp_modelName := None |}.

(** Default system prompts. *)
Definition DEFAULT_SYSTEM_PROMPTS : list SystemPrompt :=
  [ built_in "default" "Default Assistant"
      "You are a helpful AI assistant. Be concise, accurate, and friendly in your responses.";
    built_in "creative" "Creative Writer"
      "You are a creative writing assistant. Help with storytelling, character development, and imaginative content. Be creative and inspiring.";
    built_in "technical" "Technical Expert"
      "You are a technical expert and programming assistant. Provide accurate, detailed technical information and code examples when appropriate.";
    built_in "teacher" "Patient Teacher"
      "You are a patient and encouraging teacher. Explain concepts clearly, provide examples, and adapt your explanations to the user's level of understanding.";
    built_in "analyst" "Research Analyst"
      "You are a research analyst. Provide thorough analysis, cite sources when possible, and present information in a structured, objective manner." ].

(** [DEFAULT_SYSTEM_PROMPTS[0].prompt] *)
Definition DEFAULT_SYSTEM_PROMPTS_0_prompt : jsstring :=
  match DEFAULT_SYSTEM_PROMPTS !! 0%nat with
  | Some p => prompt p
  | None => []
  end.

(** ** Capacity lookup *)

(** [MODEL_CONTEXT_LIMITS[modelName] || 4096] *)
Definition getContextLimit (modelName : jsstring) : JsValue :=
  js_or (get_property MODEL_CONTEXT_LIMITS modelName) (Number 4096).

(** ** Context trimmer *)

(** [maxTokens || this.getContextLimit(modelName)] *)
Definition contextLimit (maxTokens : option Z) (modelName : jsstring)
  : JsValue :=
  js_or (optional_number maxTokens) (getContextLimit modelName).

(** [systemPrompt ? this.estimateTokens(systemPrompt) : 0] *)
Definition systemTokens (systemPrompt : option jsstring) : Z :=
  match systemPrompt with
  | Some p => if truthy_string p then estimateTokens p else 0
  | None => 0
  end.

(** [Math.floor(contextLimit * 0.8) - systemTokens]; [None] is [NaN]. *)
Definition availableTokens (maxTokens : option Z) (modelName : jsstring)
    (systemPrompt : option jsstring) : option Z :=
  match to_number (contextLimit maxTokens modelName) with
  | Some limit =>
      Some (Math_floor (inject_Z limit * (8 # 10)) - systemTokens systemPrompt)
  | None => None
  end.

(** [message.tokens || this.estimateTokens(message.text)] *)
Definition messageTokens (message : StoredMessage) : Z :=
  match tokens message with
  | Some t => if t =? 0 then estimateTokens (text message) else t
  | None => estimateTokens (text message)
  end.

(** [totalTokens + messageTokens <= availableTokens]; any comparison with
    [NaN] is false. *)
Definition fits (totalTokens cost : Z) (available : option Z) : bool :=
  match available with
  | Some a => totalTokens + cost <=? a
  | None => false
  end.

(** The [for] loop of [trimContext].  [n] is [i + 1]: the iteration that
    is about to run reads [messages[n - 1]], and the loop ends when [n]
    reaches 0 or at the [break]. *)
Fixpoint trim_loop (msgs : list StoredMessage) (available : option Z)
    (n : nat) (totalTokens : Z) (trimmedMessages : list StoredMessage)
  : list StoredMessage :=
  match n with
  | O => trimmedMessages
  | S i =>
      match msgs !! i with
      | Some message =>
          if fits totalTokens (messageTokens message) available
          then trim_loop msgs available i
                 (totalTokens + messageTokens message)
                 (message :: trimmedMessages)
          else trimmedMessages
      | None => trimmedMessages
      end
  end.

Definition trimContext (msgs : list StoredMessage) (modelName : jsstring)
    (systemPrompt : option jsstring) (maxTokens : option Z)
  : list StoredMessage :=
  let available := availableTokens maxTokens modelName systemPrompt in
  let trimmedMessages := trim_loop msgs available (length msgs) 0 [] in
  if (length trimmedMessages =? 0)%nat && (0 <? length msgs)%nat
  then
    match msgs !! (length msgs - 1)%nat with
    | Some lastMessage => trimmedMessages ++ [lastMessage]
    | None => trimmedMessages
    end
  else trimmedMessages.

(** ** Conversation titles *)

Definition generateConversationTitle (firstMessage : jsstring) : jsstring :=
  let maxLength := 50 in
  let cleaned := replace_newlines (trim firstMessage) in
  if jslength cleaned <=? maxLength then cleaned
  else substring cleaned 0 (maxLength - 3) ++ js "...".

(** ** Persistent store *)

(** The content of one [AsyncStorage] key, as its reader sees it. *)
Inductive Item (A : Type) : Type :=
| Absent         (** [getItem] resolves to [null] *)
| Stored (a : A) (** [getItem] resolves to the text that encodes [a] *)
| Unreadable.    (** [getItem] rejects, or [JSON.parse] throws *)
Arguments Absent {A}.
Arguments Stored {A} a.
Arguments Unreadable {A}.

(** The keys the service uses.  The two collections are kept as the
    values their JSON texts decode to ([JSON.stringify] followed by
    [JSON.parse] and the [new Date] conversions of [getConversations]
    gives back the same conversations); the remaining keys hold plain
    strings. *)
Record AsyncStorage : Type := {
  stored_conversations : Item (list Conversation);
  custom_system_prompts : Item (list SystemPrompt);
  plain_items : gmap jsstring jsstring;
  rejected_reads : gset jsstring;
  rejects_writes : bool
}.

(** Outcome of an operation that rethrows the store's error. *)
Inductive Outcome (A : Type) : Type :=
| Resolved (a : A)
| Rejected.
Arguments Resolved {A} a.
Arguments Rejected {A}.

(** [AsyncStorage.getItem(key)] on a key that holds a plain string. *)
Definition getItem (st : AsyncStorage) (key : jsstring) : Item jsstring :=
  if bool_decide (key ∈ rejected_reads st) then Unreadable
  else match plain_items st !! key with
       | Some v => Stored v
       | None => Absent
       end.

(** [AsyncStorage.setItem(CONVERSATIONS_KEY, JSON.stringify(conversations))] *)
Definition setItem_conversations (st : AsyncStorage)
    (conversations : list Conversation) : Outcome AsyncStorage :=
  if rejects_writes st then Rejected
  else Resolved
         {| stored_conversations := Stored conversations;
            custom_system_prompts := custom_system_prompts st;
            plain_items := plain_items st;
            rejected_reads := rejected_reads st;
            rejects_writes := rejects_writes st |}.

(** [Array.prototype.findIndex], [-1] when no element passes the test. *)
Fixpoint findIndex_from {A : Type} (test : A -> bool) (l : list A) (i : Z)
  : Z :=
  match l with
  | [] => -1
  | x :: rest => if test x then i else findIndex_from test rest (i + 1)
  end.

Definition findIndex {A : Type} (test : A -> bool) (l : list A) : Z :=
  findIndex_from test l 0.

(** [getConversations]: the stored list, or [[]] when the key is absent or
    reading it throws (the error is logged and swallowed). *)
Definition getConversations (st : AsyncStorage) : list Conversation :=
  match stored_conversations st with
  | Stored conversations => conversations
  | Absent | Unreadable => []
  end.

(** [{ ...conversation, updatedAt: new Date() }] *)
Definition with_updatedAt (conversation : Conversation) (now : Z)
  : Conversation :=
  {| id := id conversation;
     title := title conversation;
     messages := messages conversation;
     providerId := providerId conversation;
     modelName := modelName conversation;
     systemPrompt := systemPrompt conversation;
     createdAt := createdAt conversation;
     updatedAt := now |}.

(** [saveConversation]; [now] is the value of [new Date()] at the call. *)
Definition saveConversation (now : Z) (conversation : Conversation)
    (st : AsyncStorage) : Outcome AsyncStorage :=
  let conversations := getConversations st in
  let existingIndex :=
    findIndex (fun c => jseq (id c) (id conversation)) conversations in
  let conversations' :=
    if 0 <=? existingIndex
    then <[Z.to_nat existingIndex := with_updatedAt conversation now]>
           conversations
    else conversations ++ [conversation] in
  setItem_conversations st conversations'.

(** [getSystemPrompts]: built-ins first, then the custom prompts; the
    built-ins alone when the custom prompts cannot be read. *)
Definition getSystemPrompts (st : AsyncStorage) : list SystemPrompt :=
  match custom_system_prompts st with
  | Stored customPrompts => DEFAULT_SYSTEM_PROMPTS ++ customPrompts
  | Absent => DEFAULT_SYSTEM_PROMPTS ++ []
  | Unreadable => DEFAULT_SYSTEM_PROMPTS
  end.

(** The template literal [`system_prompt_${providerId}_${modelName}`] *)
Definition system_prompt_key (providerId modelName : jsstring) : jsstring :=
  js "system_prompt_" ++ providerId ++ js "_" ++ modelName.

(** [prompt?.prompt || DEFAULT_SYSTEM_PROMPTS[0].prompt] *)
Definition prompt_or_default (found : option SystemPrompt) : jsstring :=
  match found with
  | Some p =>
      if truthy_string (prompt p) then prompt p
      else DEFAULT_SYSTEM_PROMPTS_0_prompt
  | None => DEFAULT_SYSTEM_PROMPTS_0_prompt
  end.

Definition getSelectedSystemPrompt (providerId modelName : jsstring)
    (st : AsyncStorage) : jsstring :=
  match getItem st (system_prompt_key providerId modelName) with
  | Stored promptId =>
      if truthy_string promptId
      then
        let prompts := getSystemPrompts st in
        prompt_or_default (find (fun p => jseq (sp_id p) promptId) prompts)
      else DEFAULT_SYSTEM_PROMPTS_0_prompt
  | Absent | Unreadable => DEFAULT_SYSTEM_PROMPTS_0_prompt
  end.

(** ** The specification's wording, for comparison *)

(** The limit as the specification words it: the override whenever one is
    provided, else the capacity-table value. *)
Definition limit_as_specified (maxTokens : option Z) (modelName : jsstring)
  : JsValue :=
  match maxTokens with
  | Some n => Number n
  | None => getContextLimit modelName
  end.

(** The cost of a message as the specification words it: the cached
    [tokens] if set, else the estimate of the text. *)
Definition cost_as_specified (message : StoredMessage) : Z :=
  match tokens message with
  | Some t => t
  | None => estimateTokens (text message)
  end.

(** The budget as the specification words it. *)
Definition budget_as_specified (maxTokens : option Z) (modelName : jsstring)
    (systemPrompt : option jsstring) : option Z :=
  match to_number (limit_as_specified maxTokens modelName) with
  | Some limit =>
      Some (Math_floor (inject_Z limit * (8 # 10))
            - match systemPrompt with
              | Some p => estimateTokens p
              | None => 0
              end)
  | None => None
  end.

(** The title as the specification words it: newlines collapsed, then cut
    to 47 characters and an ellipsis when longer than 50. *)
Definition title_as_specified (firstMessage : jsstring) : jsstring :=
  let collapsed := replace_newlines firstMessage in
  if jslength collapsed <=? 50 then collapsed
  else take 47 collapsed ++ js "...".

(** Sum of the costs of a list of messages. *)
Definition total_cost (cost : StoredMessage -> Z) (l : list StoredMessage)
  : Z :=
  foldr (fun m acc => cost m + acc) 0 l.

(** The conversations of a list that do not have the given id. *)
Definition others (i : jsstring) (l : list Conversation) : list Conversation :=
  List.filter (fun c => negb (jseq (id c) i)) l.

(** How many conversations of a list have the given id. *)
Definition occurrences (i : jsstring) (l : list Conversation) : nat :=
  length (List.filter (fun c => jseq (id c) i) l).

(** ** Sample data *)

Definition newline : N := 10%N.

Definition message_of (t : jsstring) (cached : option Z) : StoredMessage :=
  {| msg_id := js "m"; text := t; isUser := true; timestamp := 0;
     tokens := cached |}.

(** The two turns of the specification's scenario. *)
Definition sample_history : list StoredMessage :=
  [ message_of (js "hi") None; message_of (js "hello there") None ].

Definition sample_conversation : Conversation :=
  {| id := js "1700000000000"; title := js "New Conversation";
     messages := []; providerId := js "openai"; modelName := js "gpt-4o";
     systemPrompt := None; createdAt := 1000; updatedAt := 1000 |}.

(** Sixty characters, none of them white space. *)
Definition sixty_characters : jsstring :=
  js "012345678901234567890123456789012345678901234567890123456789".

Definition empty_storage : AsyncStorage :=
  {| stored_conversations := Absent; custom_system_prompts := Absent;
     plain_items := ∅; rejected_reads := ∅; rejects_writes := false |}.

(** A store that holds the sample conversation and nothing else. *)
Definition storage_with_conversation : AsyncStorage :=
  {| stored_conversations := Stored [sample_conversation];
     custom_system_prompts := Absent;
     plain_items := ∅; rejected_reads := ∅; rejects_writes := false |}.

(** A custom prompt whose text is empty. *)
Definition blank_prompt : SystemPrompt :=
  {| sp_id := js "mine"; sp_name := js "Mine"; prompt := js "";
     isDefault := false; sp_providerId := None; sp_modelName := None |}.

(** A store in which the given prompt id is selected for openai/gpt-4o. *)
Definition storage_selecting (promptId : jsstring)
    (custom : Item (list SystemPrompt)) : AsyncStorage :=
  {| stored_conversations := Absent;
     custom_system_prompts := custom;
     plain_items :=
       {[ system_prompt_key (js "openai") (js "gpt-4o") := promptId ]};
     rejected_reads := ∅; rejects_writes := false |}.

Definition storage_with_blank_prompt : AsyncStorage :=
  storage_selecting (js "mine") (Stored [blank_prompt]).

(** A store whose preference for openai/gpt-4o cannot be read. *)
Definition storage_unreadable : AsyncStorage :=
  {| stored_conversations := Absent; custom_system_prompts := Absent;
     plain_items := ∅;
     rejected_reads := {[ system_prompt_key (js "openai") (js "gpt-4o") ]};
     rejects_writes := false |}.

(** ** Further operations of the conversation store *)

(** [CURRENT_CONVERSATION_KEY] *)
Definition CURRENT_CONVERSATION_KEY : jsstring := js "current_conversation_id".

(** [AsyncStorage.setItem(key, value)] on a key that holds a plain string. *)
Definition setItem (st : AsyncStorage) (key value : jsstring)
  : Outcome AsyncStorage :=
  if rejects_writes st then Rejected
  else Resolved
         {| stored_conversations := stored_conversations st;
            custom_system_prompts := custom_system_prompts st;
            plain_items := <[key := value]> (plain_items st);
            rejected_reads := rejected_reads st;
            rejects_writes := rejects_writes st |}.

(** [AsyncStorage.setItem(SYSTEM_PROMPTS_KEY, JSON.stringify(prompts))] *)
Definition setItem_prompts (st : AsyncStorage) (prompts : list SystemPrompt)
  : Outcome AsyncStorage :=
  if rejects_writes st then Rejected
  else Resolved
         {| stored_conversations := stored_conversations st;
            custom_system_prompts := Stored prompts;
            plain_items := plain_items st;
            rejected_reads := rejected_reads st;
            rejects_writes := rejects_writes st |}.

Definition deleteConversation (conversationId : jsstring) (st : AsyncStorage)
  : Outcome AsyncStorage :=
  let conversations := getConversations st in
  let filteredConversations :=
    List.filter (fun c => negb (jseq (id c) conversationId)) conversations in
  setItem_conversations st filteredConversations.

(** [getCurrentConversationId]; [None] is [null], also returned when the
    read throws. *)
Definition getCurrentConversationId (st : AsyncStorage) : option jsstring :=
  match getItem st CURRENT_CONVERSATION_KEY with
  | Stored v => Some v
  | Absent | Unreadable => None
  end.

Definition setCurrentConversationId (conversationId : jsstring)
    (st : AsyncStorage) : Outcome AsyncStorage :=
  setItem st CURRENT_CONVERSATION_KEY conversationId.

(** [getCustomSystemPrompts] (private): the stored custom prompts, [[]]
    when there are none or they cannot be read. *)
Definition getCustomSystemPrompts (st : AsyncStorage) : list SystemPrompt :=
  match custom_system_prompts st with
  | Stored customPrompts => customPrompts
  | Absent | Unreadable => []
  end.

Definition saveSystemPrompt (p : SystemPrompt) (st : AsyncStorage)
  : Outcome AsyncStorage :=
  let customPrompts := getCustomSystemPrompts st in
  let existingIndex :=
    findIndex (fun q => jseq (sp_id q) (sp_id p)) customPrompts in
  let customPrompts' :=
    if 0 <=? existingIndex
    then <[Z.to_nat existingIndex := p]> customPrompts
    else customPrompts ++ [p] in
  setItem_prompts st customPrompts'.

Definition deleteSystemPrompt (promptId : jsstring) (st : AsyncStorage)
  : Outcome AsyncStorage :=
  let customPrompts := getCustomSystemPrompts st in
  let filteredPrompts :=
    List.filter (fun q => negb (jseq (sp_id q) promptId)) customPrompts in
  setItem_prompts st filteredPrompts.

Definition setSelectedSystemPrompt (providerId modelName promptId : jsstring)
    (st : AsyncStorage) : Outcome AsyncStorage :=
  setItem st (system_prompt_key providerId modelName) promptId.

(** One call of the store's interface, and a sequence of calls in which a
    rejected call leaves the store as it was. *)
Inductive StoreCall : Type :=
| CallSaveConversation (now : Z) (conversation : Conversation)
| CallDeleteConversation (conversationId : jsstring)
| CallSetCurrentConversationId (conversationId : jsstring)
| CallSaveSystemPrompt (p : SystemPrompt)
| CallDeleteSystemPrompt (promptId : jsstring)
| CallSetSelectedSystemPrompt (providerId modelName promptId : jsstring).

Definition perform (call : StoreCall) (st : AsyncStorage)
  : Outcome AsyncStorage :=
  match call with
  | CallSaveConversation now c => saveConversation now c st
  | CallDeleteConversation i => deleteConversation i st
  | CallSetCurrentConversationId i => setCurrentConversationId i st
  | CallSaveSystemPrompt p => saveSystemPrompt p st
  | CallDeleteSystemPrompt i => deleteSystemPrompt i st
  | CallSetSelectedSystemPrompt p m i => setSelectedSystemPrompt p m i st
  end.

Fixpoint perform_all (calls : list StoreCall) (st : AsyncStorage)
  : AsyncStorage :=
  match calls with
  | [] => st
  | call :: rest =>
      match perform call st with
      | Resolved st' => perform_all rest st'
      | Rejected => perform_all rest st
      end
  end.

(** ** Providers and models ([src/constants/AIProviders.ts]) *)

Record AIModel : Type := {
  model_id : jsstring;
  model_name : jsstring;
  model_displayName : jsstring;
  isCustom : option bool
}.

Record AIProvider : Type := {
  provider_id : jsstring;
  provider_name : jsstring;
  provider_displayName : jsstring;
  icon : jsstring;
  apiUrl : jsstring;
  defaultModel : jsstring;
  description : jsstring;
  websiteUrl : jsstring;
  keyPrefix : jsstring;
  availableModels : list AIModel
}.

(** A predefined model: [{ id, name, displayName }] with [id = name]. *)
Definition predefined (n d : string) : AIModel :=
  {| model_id := js n; model_name := js n; model_displayName := js d;
     isCustom := None |}.

Definition OPENAI_MODELS : list AIModel :=
  [ predefined "gpt-4o" "GPT-4o";
    predefined "gpt-4o-mini" "GPT-4o Mini";
    predefined "gpt-4-turbo" "GPT-4 Turbo";
    predefined "gpt-4" "GPT-4";
    predefined "gpt-3.5-turbo" "GPT-3.5 Turbo" ].

Definition ANTHROPIC_MODELS : list AIModel :=
  [ predefined "claude-3-5-sonnet-20241022" "Claude 3.5 Sonnet";
    predefined "claude-3-5-haiku-20241022" "Claude 3.5 Haiku";
    predefined "claude-3-opus-20240229" "Claude 3 Opus";
    predefined "claude-3-sonnet-20240229" "Claude 3 Sonnet";
    predefined "claude-3-haiku-20240307" "Claude 3 Haiku" ].

Definition GOOGLE_MODELS : list AIModel :=
  [ predefined "gemini-1.5-pro-latest" "Gemini 1.5 Pro";
    predefined "gemini-1.5-flash-latest" "Gemini 1.5 Flash";
    predefined "gemini-pro" "Gemini Pro";
    predefined "gemini-pro-vision" "Gemini Pro Vision" ].

Definition GROQ_MODELS : list AIModel :=
  [ predefined "llama-3.1-405b-reasoning" "Llama 3.1 405B";
    predefined "llama-3.1-70b-versatile" "Llama 3.1 70B";
    predefined "llama-3.1-8b-instant" "Llama 3.1 8B";
    predefined "mixtral-8x7b-32768" "Mixtral 8x7B";
    predefined "gemma2-9b-it" "Gemma 2 9B" ].

Definition AI_PROVIDERS : list AIProvider :=
  [ {| provider_id := js "openai";
       provider_name := js "ChatGPT";
       provider_displayName := js "ChatGPT (OpenAI)";
       icon := js "chatbubble-ellipses";
       apiUrl := js "https://api.openai.com/v1/chat/completions";
       defaultModel := js "gpt-3.5-turbo";
       description := js "GPT models - Fast and reliable AI assistants";
       websiteUrl := js "https://platform.openai.com";
       keyPrefix := js "sk-";
       availableModels := OPENAI_MODELS |};
    {| provider_id := js "anthropic";
       provider_name := js "Claude";
       provider_displayName := js "Claude (Anthropic)";
       icon := js "library";
       apiUrl := js "https://api.anthropic.com/v1/messages";
       defaultModel := js "claude-3-haiku-20240307";
       description := js "Claude models - Thoughtful and helpful AI";
       websiteUrl := js "https://console.anthropic.com";
       keyPrefix := js "sk-ant-";
       availableModels := ANTHROPIC_MODELS |};
    {| provider_id := js "google";
       provider_name := js "Gemini";
       provider_displayName := js "Gemini (Google)";
       icon := js "diamond";
       apiUrl := js "https://generativelanguage.googleapis.com/v1beta/models";
       defaultModel := js "gemini-pro";
       description := js "Gemini models - Google's advanced AI models";
       websiteUrl := js "https://makersuite.google.com";
       keyPrefix := js "AI";
       availableModels := GOOGLE_MODELS |};
    {| provider_id := js "groq";
       provider_name := js "Groq";
       provider_displayName := js "Groq";
       icon := js "flash";
       apiUrl := js "https://api.groq.com/openai/v1/chat/completions";
       defaultModel := js "mixtral-8x7b-32768";
       description := js "Groq models - Ultra-fast inference";
       websiteUrl := js "https://console.groq.com";
       keyPrefix := js "gsk_";
       availableModels := GROQ_MODELS |} ].

(** [AI_PROVIDERS.find(provider => provider.id === id)] *)
Definition getProviderById (i : jsstring) : option AIProvider :=
  find (fun provider => jseq (provider_id provider) i) AI_PROVIDERS.

(** [s.startsWith(searchString)] *)
Definition startsWith (s searchString : jsstring) : bool :=
  bool_decide (take (length searchString) s = searchString).

Definition validateApiKey (providerId apiKey : jsstring) : bool :=
  match getProviderById providerId with
  | None => false
  | Some provider =>
      if jseq providerId (js "groq")
      then startsWith apiKey (keyPrefix provider) && (30 <=? jslength apiKey)
      else startsWith apiKey (keyPrefix provider)
           && (jslength (keyPrefix provider) + 10 <? jslength apiKey)
  end.

(** The template literal [`selected_model_${providerId}`] *)
Definition selected_model_key (providerId : jsstring) : jsstring :=
  js "selected_model_" ++ providerId.

(** [provider?.defaultModel || ''] *)
Definition defaultModel_or_empty (provider : option AIProvider) : jsstring :=
  match provider with
  | Some p => if truthy_string (defaultModel p) then defaultModel p else js ""
  | None => js ""
  end.

Definition getSelectedModel (providerId : jsstring) (st : AsyncStorage)
  : jsstring :=
  match getItem st (selected_model_key providerId) with
  | Stored selectedModel =>
      if truthy_string selectedModel then selectedModel
      else defaultModel_or_empty (getProviderById providerId)
  | Absent | Unreadable => defaultModel_or_empty (getProviderById providerId)
  end.

Definition setSelectedModel (providerId modelName : jsstring)
    (st : AsyncStorage) : Outcome AsyncStorage :=
  setItem st (selected_model_key providerId) modelName.

(** The part of [AsyncStorage] under the keys [`custom_models_${providerId}`],
    indexed by the provider id; no other function of the service reads or
    writes these keys. *)
Record CustomModels : Type := {
  custom_models : gmap jsstring (list AIModel);
  unreadable_models : gset jsstring;
  rejects_model_writes : bool
}.

(** [getCustomModelsForProvider]: the stored list, [[]] when there is none
    or it cannot be read. *)
Definition getCustomModelsForProvider (providerId : jsstring)
    (st : CustomModels) : list AIModel :=
  if bool_decide (providerId ∈ unreadable_models st) then []
  else match custom_models st !! providerId with
       | Some customModels => customModels
       | None => []
       end.

(** [AsyncStorage.setItem(`custom_models_${providerId}`, JSON.stringify(models))] *)
Definition setItem_models (st : CustomModels) (providerId : jsstring)
    (models : list AIModel) : Outcome CustomModels :=
  if rejects_model_writes st then Rejected
  else Resolved
         {| custom_models := <[providerId := models]> (custom_models st);
            unreadable_models := unreadable_models st;
            rejects_model_writes := rejects_model_writes st |}.

Definition getAvailableModelsForProvider (providerId : jsstring)
    (st : CustomModels) : list AIModel :=
  match getProviderById providerId with
  | None => []
  | Some provider =>
      availableModels provider ++ getCustomModelsForProvider providerId st
  end.

(** [addCustomModel]; throwing ['Model already exists'] is [Rejected]. *)
Definition addCustomModel (providerId modelName : jsstring)
    (st : CustomModels) : Outcome CustomModels :=
  let customModels := getCustomModelsForProvider providerId st in
  let newModel :=
    {| model_id := js "custom_" ++ modelName;
       model_name := modelName;
       model_displayName := modelName;
       isCustom := Some true |} in
  match find (fun m => jseq (model_name m) modelName) customModels with
  | Some _ => Rejected
  | None => setItem_models st providerId (customModels ++ [newModel])
  end.

Definition removeCustomModel (providerId modelId : jsstring)
    (st : CustomModels) : Outcome CustomModels :=
  let customModels := getCustomModelsForProvider providerId st in
  let updatedModels :=
    List.filter (fun m => negb (jseq (model_id m) modelId)) customModels in
  setItem_models st providerId updatedModels.

(** ** The request that is sent ([src/app/chat.tsx], [AIService]) *)

Inductive Role : Type := user | assistant | system.

Record ChatMessage : Type := {
  role : Role;
  content : jsstring
}.

Definition role_eqb (r1 r2 : Role) : bool :=
  match r1, r2 with
  | user, user | assistant, assistant | system, system => true
  | _, _ => false
  end.

(** [{ ...message, tokens: ConversationService.estimateTokens(message.text) }] *)
Definition with_tokens (message : StoredMessage) : StoredMessage :=
  {| msg_id := msg_id message;
     text := text message;
     isUser := isUser message;
     timestamp := timestamp message;
     tokens := Some (estimateTokens (text message)) |}.

(** [{ role: msg.isUser ? 'user' : 'assistant', content: msg.text }] *)
Definition turn_of (msg : StoredMessage) : ChatMessage :=
  {| role := if isUser msg then user else assistant; content := text msg |}.

(** The [conversationHistory] that [sendMessage] passes to [AIService.callAI]:
    the stored messages and the new user message are trimmed, and the
    system prompt, if it is not empty, is put in front. *)
Definition conversationHistory (storedMessages : list StoredMessage)
    (userMessage : StoredMessage) (currentModel currentSystemPrompt : jsstring)
  : list ChatMessage :=
  let conversationMessages := storedMessages ++ [with_tokens userMessage] in
  let trimmedMessages :=
    trimContext conversationMessages currentModel (Some currentSystemPrompt)
      None in
  (if truthy_string currentSystemPrompt
   then [ {| role := system; content := currentSystemPrompt |} ]
   else [])
  ++ map turn_of trimmedMessages.

(** [Array.prototype.join] on strings. *)
Fixpoint join (separator : jsstring) (l : list jsstring) : jsstring :=
  match l with
  | [] => []
  | [s] => s
  | s :: rest => s ++ separator ++ join separator rest
  end.

(** What [callAnthropic] puts in the request body: [system], which is set
    only when the joined system prompt is not empty, and [messages]. *)
Definition anthropic_request (conversation : list ChatMessage)
  : option jsstring * list ChatMessage :=
  let systemMessages :=
    List.filter (fun msg => role_eqb (role msg) system) conversation in
  let conversationMessages :=
    List.filter (fun msg => negb (role_eqb (role msg) system)) conversation in
  let systemPrompt :=
    join [newline; newline] (map content systemMessages) in
  (if truthy_string systemPrompt then Some systemPrompt else None,
   conversationMessages).

Inductive GeminiRole : Type := gemini_user | gemini_model.

(** What [callGoogle] puts in [contents]: a system turn becomes a user turn
    marked [[SYSTEM]: ] and a model turn that acknowledges it. *)
Definition google_contents (conversation : list ChatMessage)
  : list (GeminiRole * jsstring) :=
  flat_map
    (fun message =>
       match role message with
       | system =>
           [ (gemini_user, js "[SYSTEM]: " ++ content message);
             (gemini_model,
              js "I understand and will follow these instructions.") ]
       | user => [ (gemini_user, content message) ]
       | assistant => [ (gemini_model, content message) ]
       end)
    conversation.

(** The token counts of [getContextInfo]. *)
Definition currentTokens (msgs : list StoredMessage) : Z :=
  fold_left (fun sum msg => sum + estimateTokens (text msg)) msgs 0.

Definition totalTokens (msgs : list StoredMessage)
    (currentSystemPrompt : jsstring) : Z :=
  currentTokens msgs
  + (if truthy_string currentSystemPrompt
     then estimateTokens currentSystemPrompt else 0).

(** The code unit of "_", which separates the parts of a storage key. *)
Definition underscore : N := 95%N.

(** What [addCustomModel] stores: models named apart, each with the id
    [custom_<name>] and marked custom. *)
Definition custom_models_wf (l : list AIModel) : Prop :=
  NoDup (map model_name l)
  /\ Forall (fun m => model_id m = js "custom_" ++ model_name m
                      /\ isCustom m = Some true) l.

(** One call on the custom models, and a sequence of calls in which a
    rejected call leaves the store as it was. *)
Inductive ModelCall : Type :=
| CallAddCustomModel (providerId modelName : jsstring)
| CallRemoveCustomModel (providerId modelId : jsstring).

Definition perform_model (call : ModelCall) (st : CustomModels)
  : Outcome CustomModels :=
  match call with
  | CallAddCustomModel p n => addCustomModel p n st
  | CallRemoveCustomModel p i => removeCustomModel p i st
  end.

Fixpoint perform_models (calls : list ModelCall) (st : CustomModels)
  : CustomModels :=
  match calls with
  | [] => st
  | call :: rest =>
      match perform_model call st with
      | Resolved st' => perform_models rest st'
      | Rejected => perform_models rest st
      end
  end.

(** ** Sample data for the further operations *)

(** A custom prompt that reuses the id of the first built-in prompt. *)
Definition shadowing_prompt : SystemPrompt :=
  {| sp_id := js "default"; sp_name := js "Mine"; prompt := js "Be rude.";
     isDefault := false; sp_providerId := None; sp_modelName := None |}.

(** A custom prompt with an id of its own. *)
Definition brief_prompt : SystemPrompt :=
  {| sp_id := js "brief"; sp_name := js "Brief"; prompt := js "Be brief.";
     isDefault := false; sp_providerId := None; sp_modelName := None |}.

(** No custom models stored, every key readable and writable. *)
Definition empty_models : CustomModels :=
  {| custom_models := ∅; unreadable_models := ∅;
     rejects_model_writes := false |}.

Definition sample_calls : list StoreCall :=
  [ CallSaveConversation 2000 sample_conversation;
    CallSaveSystemPrompt brief_prompt;
    CallSaveConversation 3000 sample_conversation;
    CallDeleteSystemPrompt (js "brief");
    CallDeleteConversation (js "1700000000000") ].

Definition sample_model_calls : list ModelCall :=
  [ CallAddCustomModel (js "openai") (js "my-model");
    CallAddCustomModel (js "openai") (js "my-model");
    CallRemoveCustomModel (js "openai") (js "custom_my-model") ].

(** * Properties *)

(** ** Rounding *)

Lemma Math_ceil_quarter (n : Z) : Math_ceil (inject_Z n / 4) = (n + 3) / 4.
Proof.
  unfold Math_ceil, Qceiling, Qfloor, Qdiv, Qmult, Qopp, Qinv, inject_Z.
  cbn [Qnum Qden Pos.mul].
  change (Z.pos (1 * 4)) with 4. rewrite Z.mul_1_r.
  pose proof (Z.div_mod (- n) 4 ltac:(lia)).
  pose proof (Z.mod_pos_bound (- n) 4 ltac:(lia)).
  pose proof (Z.div_mod (n + 3) 4 ltac:(lia)).
  pose proof (Z.mod_pos_bound (n + 3) 4 ltac:(lia)).
  lia.
Qed.

Lemma Math_floor_eight_tenths (n : Z) :
  Math_floor (inject_Z n * (8 # 10)) = (4 * n) / 5.
Proof.
  unfold Math_floor, Qfloor, Qmult, inject_Z.
  cbn [Qnum Qden Pos.mul].
  change (Z.pos (1 * 10)) with 10.
  pose proof (Z.div_mod (n * 8) 10 ltac:(lia)).
  pose proof (Z.mod_pos_bound (n * 8) 10 ltac:(lia)).
  pose proof (Z.div_mod (4 * n) 5 ltac:(lia)).
  pose proof (Z.mod_pos_bound (4 * n) 5 ltac:(lia)).
  lia.
Qed.

(** ** Token estimator *)

Lemma estimateTokens_div (s : jsstring) :
  estimateTokens s = (jslength s + 3) / 4.
Proof. apply Math_ceil_quarter. Qed.

Lemma estimateTokens_nonneg (s : jsstring) : 0 <= estimateTokens s.
Proof.
  rewrite estimateTokens_div. unfold jslength.
  apply Z.div_pos; lia.
Qed.

Lemma estimateTokens_empty : estimateTokens [] = 0.
Proof. reflexivity. Qed.

(** C4.  [estimateTokens text] is the ceiling of [text.length / 4], that
    is the least integer [n] with [text.length <= 4 * n]; hence it is
    monotone in the length of its argument, and it is 0, 1 and 2 on the
    empty string, on "abcd" and on "abcde". *)
Theorem estimateTokens_ceiling :
  (forall text : jsstring,
      jslength text <= 4 * estimateTokens text
      /\ 4 * (estimateTokens text - 1) < jslength text)
  /\ (forall a b : jsstring,
         jslength a <= jslength b -> estimateTokens a <= estimateTokens b)
  /\ estimateTokens (js "") = 0
  /\ estimateTokens (js "abcd") = 1
  /\ estimateTokens (js "abcde") = 2.
Proof.
  split; [|split; [|repeat split]].
  - intros t. rewrite estimateTokens_div.
    pose proof (Z.div_mod (jslength t + 3) 4 ltac:(lia)).
    pose proof (Z.mod_pos_bound (jslength t + 3) 4 ltac:(lia)).
    lia.
  - intros a b Hab. rewrite !estimateTokens_div.
    apply Z.div_le_mono; lia.
Qed.

Lemma estimateTokens_ceiling_witness :
  jslength (js "abc") <= jslength (js "abcde")
  /\ estimateTokens (js "abc") <= estimateTokens (js "abcde").
Proof.
  split; [vm_compute; discriminate|].
  apply (proj1 (proj2 estimateTokens_ceiling)). vm_compute; discriminate.
Defined.

(** ** Context trimmer *)

Lemma total_cost_cons cost (m : StoredMessage) l :
  total_cost cost (m :: l) = cost m + total_cost cost l.
Proof. reflexivity. Qed.

Lemma total_cost_app cost (l1 l2 : list StoredMessage) :
  total_cost cost (l1 ++ l2) = total_cost cost l1 + total_cost cost l2.
Proof.
  induction l1 as [|m l1 IH]; cbn [app]; rewrite ?total_cost_cons, ?IH;
    [reflexivity | lia].
Qed.

Lemma total_cost_le cost1 cost2 (l : list StoredMessage) :
  (forall m, cost1 m <= cost2 m) ->
  total_cost cost1 l <= total_cost cost2 l.
Proof.
  intros Hle. induction l as [|m l IH]; [reflexivity|].
  rewrite !total_cost_cons. specialize (Hle m). lia.
Qed.

Lemma total_cost_nonneg cost (l : list StoredMessage) :
  Forall (fun m => 0 <= cost m) l -> 0 <= total_cost cost l.
Proof.
  induction 1 as [|m l Hm _ IH]; [reflexivity|].
  rewrite total_cost_cons. lia.
Qed.

(** The cost the loop charges is never below the specification's: the two
    differ only for a cached count of 0, where the loop re-estimates. *)
Lemma cost_as_specified_le (m : StoredMessage) :
  cost_as_specified m <= messageTokens m.
Proof.
  unfold cost_as_specified, messageTokens.
  destruct (tokens m) as [t|]; [|lia].
  destruct (Z.eqb_spec t 0) as [->|]; [apply estimateTokens_nonneg | lia].
Qed.

Lemma fits_spec total cost a :
  fits total cost (Some a) = true <-> total + cost <= a.
Proof. unfold fits. apply Z.leb_le. Qed.

Lemma drop_last_index {A : Type} (l : list A) (x : A) :
  l !! (length l - 1)%nat = Some x -> drop (length l - 1) l = [x].
Proof.
  intros Hx. pose proof (lookup_lt_Some _ _ _ Hx) as Hlt.
  rewrite (drop_S _ _ _ Hx).
  replace (S (length l - 1)) with (length l) by lia.
  by rewrite drop_all.
Qed.

Section Loop.

Variable msgs : list StoredMessage.
Variable available : option Z.

(** The loop's invariant: [trimmedMessages] is the suffix that starts at
    the loop index.  The loop returns a suffix that starts no later,
    and when it admitted a message the costs it added fit the budget. *)
Lemma trim_loop_suffix (n : nat) :
  forall totalTokens : Z,
    (n <= length msgs)%nat ->
    exists k : nat,
      (k <= n)%nat
      /\ trim_loop msgs available n totalTokens (drop n msgs) = drop k msgs
      /\ (k = n
          \/ exists a, available = Some a
               /\ totalTokens + total_cost messageTokens (drop k msgs)
                  - total_cost messageTokens (drop n msgs) <= a).
Proof.
  induction n as [|i IH]; intros total Hn.
  - exists 0%nat. cbn [trim_loop]. auto.
  - cbn [trim_loop].
    destruct (lookup_lt_is_Some_2 msgs i ltac:(lia)) as [m Hm].
    rewrite Hm. pose proof (drop_S _ _ _ Hm) as Hdrop.
    destruct (fits total (messageTokens m) available) eqn:Hfit.
    + rewrite <- Hdrop.
      destruct (IH (total + messageTokens m) ltac:(lia))
        as (k & Hk & Heq & Hbound).
      exists k. split; [lia|]. split; [exact Heq|]. right.
      destruct available as [a|]; [|discriminate].
      exists a. split; [reflexivity|].
      apply fits_spec in Hfit.
      destruct Hbound as [->|(a' & [= <-] & Hle)].
      * rewrite Hdrop, total_cost_cons. lia.
      * rewrite Hdrop, total_cost_cons in Hle. lia.
    + exists (S i). auto.
Qed.

(** Nothing is cut when the whole prefix still fits. *)
Lemma trim_loop_keeps_all (a : Z) (n : nat) :
  available = Some a ->
  Forall (fun m => 0 <= messageTokens m) msgs ->
  forall (totalTokens : Z) (trimmed : list StoredMessage),
    (n <= length msgs)%nat ->
    totalTokens + total_cost messageTokens (take n msgs) <= a ->
    trim_loop msgs available n totalTokens trimmed = take n msgs ++ trimmed.
Proof.
  intros -> Hpos. induction n as [|i IH]; intros total trimmed Hn Hle.
  - reflexivity.
  - cbn [trim_loop].
    destruct (lookup_lt_is_Some_2 msgs i ltac:(lia)) as [m Hm].
    rewrite Hm. rewrite (take_S_r _ _ _ Hm), total_cost_app in Hle.
    cbn [total_cost foldr] in Hle.
    assert (0 <= total_cost messageTokens (take i msgs)) as Hpre.
    { apply total_cost_nonneg. by apply Forall_take. }
    replace (fits total (messageTokens m) (Some a)) with true
      by (symmetry; apply fits_spec; lia).
    rewrite IH by lia.
    by rewrite (take_S_r _ _ _ Hm), <- app_assoc.
Qed.

End Loop.

(** What [trimContext] returns, in terms of what the loop returns. *)
Lemma trimContext_cases msgs modelName systemPrompt maxTokens :
  let walked :=
    trim_loop msgs (availableTokens maxTokens modelName systemPrompt)
      (length msgs) 0 [] in
  (msgs = [] /\ walked = []
   /\ trimContext msgs modelName systemPrompt maxTokens = [])
  \/ (walked <> []
      /\ trimContext msgs modelName systemPrompt maxTokens = walked)
  \/ (walked = []
      /\ exists m, last msgs = Some m
           /\ msgs !! (length msgs - 1)%nat = Some m
           /\ trimContext msgs modelName systemPrompt maxTokens = [m]).
Proof.
  intros walked. unfold trimContext. fold walked.
  destruct walked as [|w ws] eqn:Hw.
  - destruct msgs as [|m0 rest] eqn:Hmsgs; [left; auto|].
    right; right. split; [reflexivity|].
    rewrite <- Hmsgs.
    assert (0 < length msgs)%nat as Hlen by (subst msgs; cbn; lia).
    destruct (lookup_lt_is_Some_2 msgs (length msgs - 1) ltac:(lia))
      as [m Hm].
    exists m. rewrite last_lookup.
    replace (Nat.pred (length msgs)) with (length msgs - 1)%nat by lia.
    rewrite Hm. repeat split.
    replace (0 <? length msgs)%nat with true
      by (symmetry; apply Nat.ltb_lt; lia).
    reflexivity.
  - right; left. split; [discriminate|]. reflexivity.
Qed.

(** C1.  Whatever the history, the model name, the system prompt and the
    override, [trimContext] returns a contiguous suffix of the history, in
    the original order: the result is [messages.slice(k)] for some [k]. *)
Theorem trimContext_suffix :
  forall (msgs : list StoredMessage) (modelName : jsstring)
         (systemPrompt : option jsstring) (maxTokens : option Z),
  exists k : nat,
    (k <= length msgs)%nat
    /\ trimContext msgs modelName systemPrompt maxTokens = drop k msgs.
Proof.
  intros msgs modelName systemPrompt maxTokens.
  destruct (trim_loop_suffix msgs
              (availableTokens maxTokens modelName systemPrompt)
              (length msgs) 0 ltac:(lia)) as (k & Hk & Heq & _).
  rewrite drop_all in Heq.
  destruct (trimContext_cases msgs modelName systemPrompt maxTokens)
    as [(-> & _ & ->)|[(_ & ->)|(_ & m & _ & Hm & ->)]].
  - by exists 0%nat.
  - by exists k.
  - exists (length msgs - 1)%nat. split; [lia|].
    by rewrite (drop_last_index _ _ Hm).
Qed.

(** C2.  [trimContext] returns the empty list exactly when the history is
    empty.  When the history is not empty and the backward walk admits no
    message, the result is the single most recent message. *)
Theorem trimContext_nonempty :
  forall (msgs : list StoredMessage) (modelName : jsstring)
         (systemPrompt : option jsstring) (maxTokens : option Z),
    (trimContext msgs modelName systemPrompt maxTokens = [] <-> msgs = [])
    /\ (msgs <> [] ->
        trim_loop msgs (availableTokens maxTokens modelName systemPrompt)
          (length msgs) 0 [] = [] ->
        exists m, last msgs = Some m
          /\ trimContext msgs modelName systemPrompt maxTokens = [m]).
Proof.
  intros msgs modelName systemPrompt maxTokens.
  destruct (trimContext_cases msgs modelName systemPrompt maxTokens)
    as [(-> & _ & Ht)|[(Hw & Ht)|(Hw & m & Hlast & Hm & Ht)]].
  - split; [by rewrite Ht|]. intros Hne; by destruct Hne.
  - split; [|intros _ Hw'; by destruct Hw].
    rewrite Ht. split; [intros Hnil; by destruct Hw|].
    intros ->. by destruct Hw.
  - split.
    + rewrite Ht. split; [discriminate|]. intros ->. discriminate.
    + intros _ _. by exists m.
Qed.

Lemma trimContext_nonempty_witness :
  exists m, last sample_history = Some m
    /\ trimContext sample_history (js "gpt-4") (Some (js "four")) (Some 1)
       = [m].
Proof.
  apply (proj2 (trimContext_nonempty sample_history (js "gpt-4")
                  (Some (js "four")) (Some 1))).
  - discriminate.
  - vm_compute. reflexivity.
Defined.

Lemma systemTokens_estimate (systemPrompt : option jsstring) :
  systemTokens systemPrompt
  = match systemPrompt with
    | Some p => estimateTokens p
    | None => 0
    end.
Proof. by destruct systemPrompt as [[|c p]|]. Qed.

Lemma availableTokens_Some maxTokens modelName systemPrompt a :
  availableTokens maxTokens modelName systemPrompt = Some a ->
  exists limit,
    contextLimit maxTokens modelName = Number limit
    /\ a = Math_floor (inject_Z limit * (8 # 10)) - systemTokens systemPrompt.
Proof.
  unfold availableTokens.
  destruct (contextLimit maxTokens modelName) as [|limit|name];
    cbn [to_number]; [discriminate| |discriminate].
  intros [= <-]. by exists limit.
Qed.

Lemma contextLimit_override (n : Z) (modelName : jsstring) :
  n <> 0 -> contextLimit (Some n) modelName = Number n.
Proof.
  intros Hn. unfold contextLimit, js_or. cbn [optional_number truthy].
  by destruct (Z.eqb_spec n 0).
Qed.

Lemma contextLimit_no_override (modelName : jsstring) :
  contextLimit (Some 0) modelName = getContextLimit modelName
  /\ contextLimit None modelName = getContextLimit modelName.
Proof. split; reflexivity. Qed.

(** C3, as the code has it.  When [trimContext] returns more than one
    message, the limit in force is a number: the override if one is given
    and is not 0, else the capacity lookup's result; and the costs of the
    returned messages, whether counted as the loop counts them or as the
    cached [tokens] if set and else the estimate of the text, sum to at
    most [floor(limit * 0.8)] minus the estimate of the system prompt (0
    if absent).  Ties are admitted: a history whose costs are not negative
    and sum to the budget or less is returned whole. *)
Theorem trimContext_budget :
  (forall (msgs : list StoredMessage) (modelName : jsstring)
          (systemPrompt : option jsstring) (maxTokens : option Z),
      (1 < length (trimContext msgs modelName systemPrompt maxTokens))%nat ->
      exists limit : Z,
        contextLimit maxTokens modelName = Number limit
        /\ (forall n, maxTokens = Some n -> n <> 0 -> limit = n)
        /\ (maxTokens = None \/ maxTokens = Some 0 ->
            getContextLimit modelName = Number limit)
        /\ total_cost messageTokens
             (trimContext msgs modelName systemPrompt maxTokens)
           <= Math_floor (inject_Z limit * (8 # 10))
              - match systemPrompt with
                | Some p => estimateTokens p
                | None => 0
                end
        /\ total_cost cost_as_specified
             (trimContext msgs modelName systemPrompt maxTokens)
           <= Math_floor (inject_Z limit * (8 # 10))
              - match systemPrompt with
                | Some p => estimateTokens p
                | None => 0
                end)
  /\ (forall (msgs : list StoredMessage) (modelName : jsstring)
             (systemPrompt : option jsstring) (maxTokens : option Z)
             (a : Z),
         availableTokens maxTokens modelName systemPrompt = Some a ->
         Forall (fun m => 0 <= messageTokens m) msgs ->
         total_cost messageTokens msgs <= a ->
         trimContext msgs modelName systemPrompt maxTokens = msgs).
Proof.
  split.
  - intros msgs modelName systemPrompt maxTokens Hlen.
    destruct (trim_loop_suffix msgs
                (availableTokens maxTokens modelName systemPrompt)
                (length msgs) 0 ltac:(lia)) as (k & Hk & Heq & Hbound).
    rewrite drop_all in Heq, Hbound.
    destruct (trimContext_cases msgs modelName systemPrompt maxTokens)
      as [(_ & _ & Ht)|[(Hw & Ht)|(_ & m & _ & _ & Ht)]];
      rewrite Ht in *; cbn [length] in Hlen; [lia| |lia].
    destruct Hbound as [->|(a & Ha & Hle)].
    { rewrite drop_all in Heq. by destruct Hw. }
    destruct (availableTokens_Some _ _ _ _ Ha) as (limit & Hlimit & ->).
    rewrite systemTokens_estimate in Hle.
    exists limit. split; [exact Hlimit|]. split; [|split].
    + intros n -> Hn. rewrite contextLimit_override in Hlimit by done.
      by injection Hlimit.
    + intros [->| ->]; exact Hlimit.
    + rewrite Heq. cbn [total_cost foldr] in Hle.
      pose proof (total_cost_le cost_as_specified messageTokens (drop k msgs)
                    cost_as_specified_le).
      split; lia.
  - intros msgs modelName systemPrompt maxTokens a Ha Hpos Hle.
    pose proof (trim_loop_keeps_all msgs _ a (length msgs) Ha Hpos 0 []
                  ltac:(lia)) as Hall.
    rewrite firstn_all, app_nil_r in Hall. specialize (Hall ltac:(lia)).
    destruct (trimContext_cases msgs modelName systemPrompt maxTokens)
      as [(-> & _ & ->)|[(_ & ->)|(Hw & m & Hlast & _)]].
    + reflexivity.
    + exact Hall.
    + rewrite Hall in Hw. rewrite Hw in Hlast. discriminate.
Qed.

Lemma trimContext_budget_witness :
  (exists limit : Z,
      contextLimit None (js "gpt-4") = Number limit
      /\ total_cost cost_as_specified
           (trimContext sample_history (js "gpt-4") None None)
         <= Math_floor (inject_Z limit * (8 # 10)) - 0)
  /\ trimContext sample_history (js "gpt-4") None (Some 5) = sample_history.
Proof.
  split.
  - destruct (proj1 trimContext_budget sample_history (js "gpt-4") None None)
      as (limit & Hlimit & _ & _ & _ & Hcost); [vm_compute; lia|].
    exists limit. split; [exact Hlimit | exact Hcost].
  - apply (proj2 trimContext_budget sample_history (js "gpt-4") None
             (Some 5) 4).
    + reflexivity.
    + repeat constructor; vm_compute; discriminate.
    + vm_compute; discriminate.
Defined.

(** C3 as stated fails when the override is 0: the limit in force is then
    the capacity lookup's, and two messages of total cost 4 are returned
    against a stated budget of [floor(0 * 0.8) - 0 = 0]. *)
Lemma trimContext_budget_override_zero :
  Nat.lt 1 (length (trimContext sample_history (js "gpt-4") None (Some 0)))
  /\ budget_as_specified (Some 0) (js "gpt-4") None = Some 0
  /\ total_cost cost_as_specified
       (trimContext sample_history (js "gpt-4") None (Some 0)) = 4
  /\ ~ total_cost cost_as_specified
         (trimContext sample_history (js "gpt-4") None (Some 0)) <= 0.
Proof. vm_compute. repeat split; try lia. intros H; by apply H. Qed.

(** C6, as the code has it.  An override other than 0 is the limit, for
    any model name: the budget is computed from it alone and the result of
    [trimContext] does not depend on the model name.  An override of 0 is
    treated as an absent one: the limit is the capacity lookup's. *)
Theorem override_replaces_lookup :
  forall modelName : jsstring,
    (forall n : Z,
        n <> 0 ->
        contextLimit (Some n) modelName = Number n
        /\ (forall systemPrompt,
               availableTokens (Some n) modelName systemPrompt
               = Some (Math_floor (inject_Z n * (8 # 10))
                       - systemTokens systemPrompt))
        /\ (forall msgs systemPrompt otherModel,
               trimContext msgs modelName systemPrompt (Some n)
               = trimContext msgs otherModel systemPrompt (Some n)))
    /\ contextLimit (Some 0) modelName = getContextLimit modelName
    /\ contextLimit None modelName = getContextLimit modelName.
Proof.
  intros modelName. split; [|apply contextLimit_no_override].
  intros n Hn.
  assert (forall model systemPrompt,
             availableTokens (Some n) model systemPrompt
             = Some (Math_floor (inject_Z n * (8 # 10))
                     - systemTokens systemPrompt)) as Havail.
  { intros model sp. unfold availableTokens.
    by rewrite contextLimit_override. }
  split; [by apply contextLimit_override|]. split; [apply Havail|].
  intros msgs sp other. unfold trimContext. by rewrite !Havail.
Qed.

Lemma override_replaces_lookup_witness :
  contextLimit (Some 100) (js "gpt-4o") = Number 100.
Proof.
  apply (proj1 (override_replaces_lookup (js "gpt-4o")) 100). discriminate.
Defined.

(** C6 as stated fails at the override 0: the limit is the table's value
    for the model, not 0. *)
Lemma override_zero_falls_back :
  contextLimit (Some 0) (js "gpt-4o") = Number 128000
  /\ contextLimit (Some 0) (js "gpt-4o")
     <> limit_as_specified (Some 0) (js "gpt-4o").
Proof. split; [vm_compute; reflexivity | vm_compute; discriminate]. Qed.


(** ** Capacity lookup *)

Lemma MODEL_CONTEXT_LIMITS_large (name : jsstring) (n : Z) :
  MODEL_CONTEXT_LIMITS !! name = Some n -> 4096 <= n.
Proof.
  intros Hn. apply elem_of_list_to_map_2 in Hn.
  assert (Forall (fun e => 4096 <= e.2) MODEL_CONTEXT_LIMITS_entries) as Hall.
  { repeat constructor; cbn; lia. }
  rewrite Forall_forall in Hall. exact (Hall _ Hn).
Qed.

Lemma MODEL_CONTEXT_LIMITS_not_inherited (name : jsstring) :
  name ∈ Object_prototype_keys -> MODEL_CONTEXT_LIMITS !! name = None.
Proof.
  assert (Forall (fun k => MODEL_CONTEXT_LIMITS !! k = None)
            Object_prototype_keys) as Hall.
  { repeat constructor; vm_compute; reflexivity. }
  rewrite Forall_forall in Hall. apply Hall.
Qed.

(** The lookup is an exact match on the table's own keys; a name that the
    table does not have yields the default, unless it names a member
    inherited from [Object.prototype], which is returned as it is. *)
Lemma getContextLimit_lookup (name : jsstring) :
  getContextLimit name
  = match MODEL_CONTEXT_LIMITS !! name with
    | Some n => Number n
    | None =>
        if bool_decide (name ∈ Object_prototype_keys) then Inherited name
        else Number 4096
    end.
Proof.
  unfold getContextLimit, js_or, get_property.
  destruct (MODEL_CONTEXT_LIMITS !! name) as [n|] eqn:Hn.
  - apply MODEL_CONTEXT_LIMITS_large in Hn. cbn [truthy].
    by destruct (Z.eqb_spec n 0) as [->|].
  - by case_bool_decide.
Qed.

Lemma getContextLimit_range (name : jsstring) :
  name ∉ Object_prototype_keys ->
  exists n, getContextLimit name = Number n /\ 4096 <= n.
Proof.
  intros Hown. rewrite getContextLimit_lookup.
  destruct (MODEL_CONTEXT_LIMITS !! name) as [n|] eqn:Hn.
  - exists n. split; [reflexivity|]. by eapply MODEL_CONTEXT_LIMITS_large.
  - rewrite bool_decide_eq_false_2 by done. by exists 4096.
Qed.

Lemma getContextLimit_inherited (name : jsstring) :
  name ∈ Object_prototype_keys -> getContextLimit name = Inherited name.
Proof.
  intros Hin. rewrite getContextLimit_lookup.
  rewrite (MODEL_CONTEXT_LIMITS_not_inherited _ Hin).
  by rewrite bool_decide_eq_true_2.
Qed.

(** C5.  The lookup is case-sensitive and exact: "gpt-4o" yields 128000,
    while "GPT-4o" and "unknown-model-xyz", which the table does not have,
    yield 4096.  But "constructor", which the table does not have either,
    yields the function that the table inherits under that name, not
    4096. *)
Theorem getContextLimit_constructor :
  getContextLimit (js "gpt-4o") = Number 128000
  /\ getContextLimit (js "GPT-4o") = Number 4096
  /\ getContextLimit (js "unknown-model-xyz") = Number 4096
  /\ MODEL_CONTEXT_LIMITS !! js "constructor" = None
  /\ getContextLimit (js "constructor") = Inherited (js "constructor")
  /\ getContextLimit (js "constructor") <> Number 4096.
Proof.
  repeat split; try (vm_compute; reflexivity). vm_compute; discriminate.
Qed.

(** C10.  For the model name "toString" the lookup yields an inherited
    function: no number, so none that is at least 4096.  The budget is
    then [NaN], every comparison of the walk fails, and a two-message
    history that fits any table entry is cut to its last message. *)
Theorem getContextLimit_toString :
  getContextLimit (js "toString") = Inherited (js "toString")
  /\ to_number (getContextLimit (js "toString")) = None
  /\ availableTokens None (js "toString") None = None
  /\ trimContext sample_history (js "toString") None None
     = drop 1 sample_history
  /\ trimContext sample_history (js "gpt-3.5-turbo") None None
     = sample_history.
Proof. repeat split; vm_compute; reflexivity. Qed.

(** ** Conversation titles *)

Lemma trimStart_decompose (s : jsstring) :
  exists pre,
    s = pre ++ trimStart s
    /\ Forall (fun c => is_trim_space c = true) pre
    /\ (forall c, head (trimStart s) = Some c -> is_trim_space c = false).
Proof.
  induction s as [|c s (pre & Heq & Hpre & Hhead)].
  - exists []. repeat split; [constructor | discriminate].
  - cbn [trimStart]. destruct (is_trim_space c) eqn:Hc.
    + exists (c :: pre). cbn [app]. rewrite <- Heq. auto.
    + exists []. repeat split; [constructor|]. by intros ? [= <-].
Qed.

Lemma trimStart_fixed (s : jsstring) :
  (forall c, head s = Some c -> is_trim_space c = false) -> trimStart s = s.
Proof.
  destruct s as [|c s]; [reflexivity|]. intros Hc. cbn [trimStart].
  by rewrite (Hc c eq_refl).
Qed.

Lemma head_rev {A} (l : list A) : head (rev l) = last l.
Proof.
  induction l as [|x l IH] using rev_ind; [reflexivity|].
  by rewrite rev_app_distr, last_snoc.
Qed.

Lemma last_rev {A} (l : list A) : last (rev l) = head l.
Proof. by rewrite <- head_rev, rev_involutive. Qed.

Lemma trim_decompose (s : jsstring) :
  exists pre post,
    s = pre ++ trim s ++ post
    /\ Forall (fun c => is_trim_space c = true) pre
    /\ Forall (fun c => is_trim_space c = true) post
    /\ (forall c, head (trim s) = Some c -> is_trim_space c = false)
    /\ (forall c, last (trim s) = Some c -> is_trim_space c = false).
Proof.
  destruct (trimStart_decompose s) as (pre & Hs & Hpre & Hhead).
  destruct (trimStart_decompose (rev (trimStart s))) as (q & Ht & Hq & Hlast).
  assert (trimStart s = trim s ++ rev q) as Hmid.
  { unfold trim, trimEnd. rewrite <- rev_app_distr, <- Ht.
    by rewrite rev_involutive. }
  exists pre, (rev q). repeat split.
  - by rewrite <- Hmid.
  - exact Hpre.
  - rewrite Forall_forall in Hq |- *. intros c Hc. apply Hq.
    by rewrite list_elem_of_In, in_rev, <- list_elem_of_In.
  - intros c Hc. apply Hhead. rewrite Hmid.
    destruct (trim s); [discriminate|exact Hc].
  - intros c Hc. apply Hlast. unfold trim, trimEnd in Hc.
    by rewrite last_rev in Hc.
Qed.

Lemma trim_fixed (s : jsstring) :
  (forall c, head s = Some c -> is_trim_space c = false) ->
  (forall c, last s = Some c -> is_trim_space c = false) ->
  trim s = s.
Proof.
  intros Hhead Hlast. unfold trim, trimEnd.
  rewrite (trimStart_fixed s Hhead).
  rewrite trimStart_fixed; [apply rev_involutive|].
  intros c. rewrite head_rev. apply Hlast.
Qed.

Lemma substring_prefix (s : jsstring) (n : Z) :
  0 <= n <= jslength s -> substring s 0 n = take (Z.to_nat n) s.
Proof.
  intros Hn. unfold substring.
  rewrite (Z.max_l 0 0), (Z.min_l 0) by lia.
  rewrite (Z.max_l n 0), (Z.min_l n) by lia.
  rewrite Z.min_l, Z.max_r by lia.
  by rewrite Z.sub_0_r.
Qed.

Lemma jslength_replace_newlines (s : jsstring) :
  jslength (replace_newlines s) = jslength s.
Proof. unfold jslength, replace_newlines. by rewrite length_map. Qed.

Lemma replace_newlines_clean (s : jsstring) : newline ∉ replace_newlines s.
Proof.
  unfold replace_newlines. rewrite list_elem_of_In, in_map_iff.
  intros (c & Hc & _). destruct (N.eqb_spec c 10); [discriminate|].
  by subst c.
Qed.

(** C7, as the code has it.  [generateConversationTitle] first strips the
    leading and trailing white space of its input and then replaces each
    newline with a space.  If the cleaned string has at most 50 characters
    it is the result, unchanged; otherwise the result is its first 47
    characters followed by "...", 50 characters in all.  On an input that
    [trim] leaves unchanged this is the specification's transform, and
    "Hello\nworld" yields "Hello world". *)
Theorem generateConversationTitle_trimmed :
  forall firstMessage : jsstring,
    (jslength (replace_newlines (trim firstMessage)) <= 50 ->
     generateConversationTitle firstMessage
     = replace_newlines (trim firstMessage))
    /\ (50 < jslength (replace_newlines (trim firstMessage)) ->
        generateConversationTitle firstMessage
        = take 47 (replace_newlines (trim firstMessage)) ++ js "..."
        /\ jslength (generateConversationTitle firstMessage) = 50)
    /\ (trim firstMessage = firstMessage ->
        generateConversationTitle firstMessage
        = title_as_specified firstMessage)
    /\ generateConversationTitle (js "Hello" ++ [newline] ++ js "world")
       = js "Hello world".
Proof.
  intros s. unfold generateConversationTitle.
  set (cleaned := replace_newlines (trim s)).
  assert (50 < jslength cleaned ->
          substring cleaned 0 (50 - 3) = take 47 cleaned) as Hcut.
  { intros Hlong. by rewrite substring_prefix by lia. }
  split; [|split; [|split]].
  - intros Hshort. by rewrite (proj2 (Z.leb_le _ _) Hshort).
  - intros Hlong. rewrite (proj2 (Z.leb_gt _ _) Hlong), (Hcut Hlong).
    split; [reflexivity|].
    unfold jslength in *. rewrite length_app, length_take.
    change (length (js "...")) with 3%nat. lia.
  - intros Hfix. unfold title_as_specified. subst cleaned. rewrite Hfix.
    destruct (Z.leb_spec (jslength (replace_newlines s)) 50) as [|Hlong];
      [reflexivity|].
    rewrite Hfix in Hcut. by rewrite Hcut.
  - vm_compute. reflexivity.
Qed.

Lemma generateConversationTitle_trimmed_witness :
  generateConversationTitle (js " hi") = replace_newlines (trim (js " hi"))
  /\ generateConversationTitle sixty_characters
     = take 47 (replace_newlines (trim sixty_characters)) ++ js "..."
  /\ generateConversationTitle (js "hi") = title_as_specified (js "hi").
Proof.
  split; [|split].
  - apply (proj1 (generateConversationTitle_trimmed (js " hi"))).
    vm_compute; discriminate.
  - apply (proj1 (proj2 (generateConversationTitle_trimmed
                           sixty_characters))).
    vm_compute. reflexivity.
  - apply (proj1 (proj2 (proj2 (generateConversationTitle_trimmed
                                  (js "hi"))))).
    vm_compute. reflexivity.
Defined.

(** C7 as stated fails on an input that starts with a space: the code
    strips it, the stated transform keeps it. *)
Lemma generateConversationTitle_strips_space :
  generateConversationTitle (js " hi") = js "hi"
  /\ title_as_specified (js " hi") = js " hi"
  /\ generateConversationTitle (js " hi") <> title_as_specified (js " hi").
Proof. repeat split; [vm_compute; reflexivity.. | vm_compute; discriminate]. Qed.

(** ** Conversation store *)

Section FindIndex.

Context {A : Type} (test : A -> bool).

(** [findIndex] returns [-1] when no element passes the test, and else the
    position of the first element that does. *)
Lemma findIndex_from_spec (l : list A) :
  forall i : Z,
    0 <= i ->
    (findIndex_from test l i = -1 /\ Forall (fun x => test x = false) l)
    \/ (exists pre x post,
           l = pre ++ x :: post
           /\ Forall (fun x => test x = false) pre
           /\ test x = true
           /\ findIndex_from test l i = i + Z.of_nat (length pre)).
Proof.
  induction l as [|y l IH]; intros i Hi.
  - left. split; [reflexivity | constructor].
  - cbn [findIndex_from]. destruct (test y) eqn:Hy.
    + right. exists [], y, l. repeat split; [constructor | done | cbn; lia].
    + destruct (IH (i + 1) ltac:(lia))
        as [(Hnone & Hall)|(pre & x & post & -> & Hpre & Hx & Hidx)].
      * left. split; [exact Hnone | by constructor].
      * right. exists (y :: pre), x, post.
        repeat split; [by constructor | done | cbn [length]; lia].
Qed.

Lemma findIndex_spec (l : list A) :
  (findIndex test l = -1 /\ Forall (fun x => test x = false) l)
  \/ (exists pre x post,
         l = pre ++ x :: post
         /\ Forall (fun x => test x = false) pre
         /\ test x = true
         /\ findIndex test l = Z.of_nat (length pre)).
Proof. apply (findIndex_from_spec l 0). lia. Qed.

Lemma filter_none (l : list A) :
  Forall (fun x => test x = false) l -> List.filter test l = [].
Proof.
  induction 1 as [|x l Hx _ IH]; [reflexivity|].
  cbn [List.filter]. by rewrite Hx.
Qed.

End FindIndex.

Lemma jseq_eq (s t : jsstring) : jseq s t = true <-> s = t.
Proof. unfold jseq. apply bool_decide_eq_true. Qed.

Lemma jseq_refl (s : jsstring) : jseq s s = true.
Proof. by apply jseq_eq. Qed.

Lemma insert_middle {A} (pre post : list A) (x y : A) :
  <[length pre := y]> (pre ++ x :: post) = pre ++ y :: post.
Proof.
  rewrite insert_app_r_alt by lia. by rewrite Nat.sub_diag.
Qed.

Lemma others_app i l1 l2 : others i (l1 ++ l2) = others i l1 ++ others i l2.
Proof. apply List.filter_app. Qed.

Lemma others_same i c l : id c = i -> others i (c :: l) = others i l.
Proof.
  intros <-. unfold others. cbn [List.filter]. by rewrite jseq_refl.
Qed.

Lemma occurrences_app i l1 l2 :
  occurrences i (l1 ++ l2) = (occurrences i l1 + occurrences i l2)%nat.
Proof. unfold occurrences. by rewrite List.filter_app, length_app. Qed.

Lemma occurrences_same i c l :
  id c = i -> occurrences i (c :: l) = S (occurrences i l).
Proof.
  intros <-. unfold occurrences. cbn [List.filter]. by rewrite jseq_refl.
Qed.

Lemma occurrences_none i l :
  Forall (fun c => jseq (id c) i = false) l -> occurrences i l = 0%nat.
Proof. intros Hl. unfold occurrences. by rewrite filter_none. Qed.

(** The two branches of [saveConversation], on the list it read. *)
Lemma saveConversation_cases :
  forall (now : Z) (c : Conversation) (st : AsyncStorage),
    rejects_writes st = false ->
    exists st' : AsyncStorage,
      saveConversation now c st = Resolved st'
      /\ custom_system_prompts st' = custom_system_prompts st
      /\ plain_items st' = plain_items st
      /\ others (id c) (getConversations st')
         = others (id c) (getConversations st)
      /\ (occurrences (id c) (getConversations st) = 0%nat ->
          getConversations st' = getConversations st ++ [c]
          /\ occurrences (id c) (getConversations st') = 1%nat)
      /\ (occurrences (id c) (getConversations st) <> 0%nat ->
          exists pre old post,
            getConversations st = pre ++ old :: post
            /\ Forall (fun x => id x <> id c) pre
            /\ id old = id c
            /\ getConversations st' = pre ++ with_updatedAt c now :: post
            /\ updatedAt (with_updatedAt c now) = now
            /\ occurrences (id c) (getConversations st')
               = occurrences (id c) (getConversations st)).
Proof.
  intros now c st Hw. unfold saveConversation, setItem_conversations.
  rewrite Hw. remember (getConversations st) as l eqn:El. clear El.
  eexists. split; [reflexivity|].
  cbn [getConversations stored_conversations custom_system_prompts
       plain_items].
  split; [reflexivity|]. split; [reflexivity|].
  destruct (findIndex_spec (fun x => jseq (id x) (id c)) l)
    as [(Hidx & Hnone)|(pre & old & post & Hl & Hpre & Hold & Hidx)];
    rewrite Hidx.
  - cbn [Z.leb Z.compare].
    pose proof (occurrences_none _ _ Hnone) as Hocc.
    split; [|split].
    + rewrite others_app, (others_same _ c []) by done. apply app_nil_r.
    + intros _. split; [reflexivity|].
      rewrite occurrences_app, Hocc, (occurrences_same _ c []) by done.
      reflexivity.
    + intros Hne. by destruct Hne.
  - replace (0 <=? Z.of_nat (length pre)) with true
      by (symmetry; apply Z.leb_le; lia).
    rewrite Nat2Z.id, Hl, insert_middle.
    apply jseq_eq in Hold.
    split; [|split].
    + rewrite !others_app. f_equal.
      rewrite (others_same _ old) by done.
      by rewrite (others_same _ (with_updatedAt c now)).
    + rewrite occurrences_app, (occurrences_same _ old) by done. lia.
    + intros _. exists pre, old, post. repeat split; try done.
      * eapply Forall_impl; [exact Hpre|]. cbn. intros x Hx Heq.
        apply jseq_eq in Heq. congruence.
      * rewrite !occurrences_app. f_equal.
        rewrite (occurrences_same _ old) by done.
        by rewrite (occurrences_same _ (with_updatedAt c now)).
Qed.

Lemma saveConversation_rejected (now : Z) (c : Conversation)
    (st : AsyncStorage) :
  rejects_writes st = true -> saveConversation now c st = Rejected.
Proof.
  intros Hw. unfold saveConversation, setItem_conversations. by rewrite Hw.
Qed.

(** C8, as the code has it.  When the store accepts the write,
    [saveConversation] leaves every stored conversation with another id
    unchanged and in place.  If no stored conversation has the id, the
    conversation is appended exactly as it was passed, with the
    [updatedAt] it came with.  If some have it, the first of them is
    replaced by the conversation with [updatedAt] set to the time of the
    save.  When at most one stored conversation had the id, exactly one
    has it afterwards. *)
Theorem saveConversation_upsert :
  forall (now : Z) (c : Conversation) (st : AsyncStorage),
    rejects_writes st = false ->
    exists st' : AsyncStorage,
      saveConversation now c st = Resolved st'
      /\ others (id c) (getConversations st')
         = others (id c) (getConversations st)
      /\ ((occurrences (id c) (getConversations st) <= 1)%nat ->
          occurrences (id c) (getConversations st') = 1%nat)
      /\ (occurrences (id c) (getConversations st) = 0%nat ->
          getConversations st' = getConversations st ++ [c])
      /\ (occurrences (id c) (getConversations st) <> 0%nat ->
          exists pre old post,
            getConversations st = pre ++ old :: post
            /\ Forall (fun x => id x <> id c) pre
            /\ id old = id c
            /\ getConversations st' = pre ++ with_updatedAt c now :: post
            /\ id (with_updatedAt c now) = id c
            /\ updatedAt (with_updatedAt c now) = now).
Proof.
  intros now c st Hw.
  destruct (saveConversation_cases now c st Hw)
    as (st' & Hsave & _ & _ & Hothers & Hnew & Hold).
  exists st'. split; [exact Hsave|]. split; [exact Hothers|].
  split; [|split].
  - intros Hle.
    destruct (decide (occurrences (id c) (getConversations st) = 0%nat))
      as [Hz|Hnz].
    + by apply Hnew.
    + destruct (Hold Hnz) as (? & ? & ? & _ & _ & _ & _ & _ & ->). lia.
  - intros Hz. by apply Hnew.
  - intros Hnz.
    destruct (Hold Hnz) as (pre & old & post & H1 & H2 & H3 & H4 & H5 & _).
    exists pre, old, post. repeat split; done.
Qed.

Lemma saveConversation_upsert_witness :
  (exists st' : AsyncStorage,
      saveConversation 2000 sample_conversation empty_storage = Resolved st'
      /\ getConversations st'
         = getConversations empty_storage ++ [sample_conversation])
  /\ (exists st' : AsyncStorage,
         saveConversation 2000 sample_conversation storage_with_conversation
         = Resolved st'
         /\ occurrences (id sample_conversation) (getConversations st')
            = 1%nat
         /\ exists pre old post,
              getConversations storage_with_conversation = pre ++ old :: post
              /\ getConversations st'
                 = pre ++ with_updatedAt sample_conversation 2000 :: post).
Proof.
  split.
  - destruct (saveConversation_upsert 2000 sample_conversation empty_storage
                eq_refl) as (st' & Hsave & _ & _ & Hnew & _).
    exists st'. split; [exact Hsave|]. by apply Hnew.
  - destruct (saveConversation_upsert 2000 sample_conversation
                storage_with_conversation eq_refl)
      as (st' & Hsave & _ & Hone & _ & Hold).
    exists st'. split; [exact Hsave|]. split.
    + apply Hone. vm_compute. lia.
    + destruct Hold as (pre & old & post & Hl & _ & _ & Hl' & _);
        [vm_compute; discriminate|].
      by exists pre, old, post.
Defined.

(** C8 as stated fails for a conversation whose id is new: it is stored
    with the [updatedAt] it was passed with, not with the time of the
    save. *)
Lemma saveConversation_new_keeps_updatedAt :
  exists st' : AsyncStorage,
    saveConversation 2000 sample_conversation empty_storage = Resolved st'
    /\ getConversations st' = [sample_conversation]
    /\ updatedAt sample_conversation = 1000
    /\ ~ (exists x, x ∈ getConversations st'
                   /\ id x = id sample_conversation /\ updatedAt x = 2000).
Proof.
  eexists. split; [reflexivity|]. split; [reflexivity|].
  split; [reflexivity|].
  intros (x & Hx & _ & Hupd). cbn in Hx.
  apply list_elem_of_singleton in Hx. subst x. discriminate.
Qed.

(** ** System prompts *)

Lemma find_None_iff (promptId : jsstring) (prompts : list SystemPrompt) :
  find (fun p => jseq (sp_id p) promptId) prompts = None
  <-> (forall p, p ∈ prompts -> sp_id p <> promptId).
Proof.
  split.
  - intros Hnone p Hp Heq. apply list_elem_of_In in Hp.
    pose proof (find_none _ _ Hnone p Hp) as Hf. cbn in Hf.
    rewrite (proj2 (jseq_eq _ _) Heq) in Hf. discriminate.
  - intros Hall. destruct (find _ prompts) as [p|] eqn:Hf; [|reflexivity].
    apply find_some in Hf as [Hin Heq]. apply jseq_eq in Heq.
    apply list_elem_of_In in Hin. by destruct (Hall p Hin).
Qed.

Lemma truthy_string_nonempty (s : jsstring) : s <> [] -> truthy_string s = true.
Proof. by destruct s. Qed.

(** C9, as the code has it.  [getSelectedSystemPrompt] returns the text of
    the first built-in prompt, "Default Assistant", when no preference is
    stored for the pair, when the stored id is the id of no built-in or
    custom prompt, when the stored id is empty and when the preference
    cannot be read.  When the stored id, not empty, is the id of a prompt,
    the first such prompt counts, built-ins before custom ones: its text
    is returned if it is not empty, and the first built-in prompt's text
    if it is. *)
Theorem getSelectedSystemPrompt_fallback :
  forall (providerId modelName : jsstring) (st : AsyncStorage),
    (getItem st (system_prompt_key providerId modelName) = Absent ->
     getSelectedSystemPrompt providerId modelName st
     = DEFAULT_SYSTEM_PROMPTS_0_prompt)
    /\ (forall promptId,
           getItem st (system_prompt_key providerId modelName)
           = Stored promptId ->
           (forall p, p ∈ getSystemPrompts st -> sp_id p <> promptId) ->
           getSelectedSystemPrompt providerId modelName st
           = DEFAULT_SYSTEM_PROMPTS_0_prompt)
    /\ (forall promptId p,
           getItem st (system_prompt_key providerId modelName)
           = Stored promptId ->
           promptId <> [] ->
           find (fun q => jseq (sp_id q) promptId) (getSystemPrompts st)
           = Some p ->
           prompt p <> [] ->
           getSelectedSystemPrompt providerId modelName st = prompt p)
    /\ (forall promptId p,
           getItem st (system_prompt_key providerId modelName)
           = Stored promptId ->
           find (fun q => jseq (sp_id q) promptId) (getSystemPrompts st)
           = Some p ->
           prompt p = [] ->
           getSelectedSystemPrompt providerId modelName st
           = DEFAULT_SYSTEM_PROMPTS_0_prompt)
    /\ (getItem st (system_prompt_key providerId modelName) = Stored [] ->
        getSelectedSystemPrompt providerId modelName st
        = DEFAULT_SYSTEM_PROMPTS_0_prompt)
    /\ (getItem st (system_prompt_key providerId modelName) = Unreadable ->
        getSelectedSystemPrompt providerId modelName st
        = DEFAULT_SYSTEM_PROMPTS_0_prompt)
    /\ (exists first_built_in,
           head DEFAULT_SYSTEM_PROMPTS = Some first_built_in
           /\ sp_name first_built_in = js "Default Assistant"
           /\ prompt first_built_in = DEFAULT_SYSTEM_PROMPTS_0_prompt).
Proof.
  intros providerId modelName st. unfold getSelectedSystemPrompt.
  repeat split.
  - by intros ->.
  - intros promptId -> Hnone. apply find_None_iff in Hnone.
    rewrite Hnone. by destruct (truthy_string promptId).
  - intros promptId p -> Hid Hfind Hp.
    rewrite (truthy_string_nonempty _ Hid), Hfind. cbn [prompt_or_default].
    by rewrite (truthy_string_nonempty _ Hp).
  - intros promptId p -> Hfind Hp. rewrite Hfind. cbn [prompt_or_default].
    rewrite Hp. by destruct (truthy_string promptId).
  - by intros ->.
  - by intros ->.
  - eexists. repeat split.
Qed.

Lemma getSelectedSystemPrompt_fallback_witness :
  getSelectedSystemPrompt (js "openai") (js "gpt-4o") empty_storage
  = DEFAULT_SYSTEM_PROMPTS_0_prompt
  /\ getSelectedSystemPrompt (js "openai") (js "gpt-4o")
       (storage_selecting (js "deleted") Absent)
     = DEFAULT_SYSTEM_PROMPTS_0_prompt
  /\ getSelectedSystemPrompt (js "openai") (js "gpt-4o")
       (storage_selecting (js "mine") (Stored [blank_prompt]))
     = DEFAULT_SYSTEM_PROMPTS_0_prompt
  /\ getSelectedSystemPrompt (js "openai") (js "gpt-4o")
       (storage_selecting (js "") Absent)
     = DEFAULT_SYSTEM_PROMPTS_0_prompt
  /\ getSelectedSystemPrompt (js "openai") (js "gpt-4o") storage_unreadable
     = DEFAULT_SYSTEM_PROMPTS_0_prompt
  /\ exists creative,
       DEFAULT_SYSTEM_PROMPTS !! 1%nat = Some creative
       /\ getSelectedSystemPrompt (js "openai") (js "gpt-4o")
            (storage_selecting (js "creative") Absent)
          = prompt creative.
Proof.
  split; [|split; [|split; [|split; [|split]]]].
  - apply (proj1 (getSelectedSystemPrompt_fallback (js "openai")
                    (js "gpt-4o") empty_storage)).
    vm_compute. reflexivity.
  - destruct (getSelectedSystemPrompt_fallback (js "openai") (js "gpt-4o")
                (storage_selecting (js "deleted") Absent))
      as (_ & Hgone & _).
    apply (Hgone (js "deleted")); [vm_compute; reflexivity|].
    apply find_None_iff. vm_compute. reflexivity.
  - destruct (getSelectedSystemPrompt_fallback (js "openai") (js "gpt-4o")
                (storage_selecting (js "mine") (Stored [blank_prompt])))
      as (_ & _ & _ & Hblank & _).
    apply (Hblank (js "mine") blank_prompt); vm_compute; reflexivity.
  - destruct (getSelectedSystemPrompt_fallback (js "openai") (js "gpt-4o")
                (storage_selecting (js "") Absent))
      as (_ & _ & _ & _ & Hempty & _).
    apply Hempty. vm_compute. reflexivity.
  - destruct (getSelectedSystemPrompt_fallback (js "openai") (js "gpt-4o")
                storage_unreadable)
      as (_ & _ & _ & _ & _ & Hfail & _).
    apply Hfail. vm_compute. reflexivity.
  - eexists. split; [reflexivity|].
    destruct (getSelectedSystemPrompt_fallback (js "openai") (js "gpt-4o")
                (storage_selecting (js "creative") Absent))
      as (_ & _ & Hfound & _).
    apply (Hfound (js "creative")); vm_compute; try reflexivity;
      discriminate.
Defined.

(** C9 as stated fails when the stored id resolves to a prompt whose text
    is empty: the first built-in prompt's text is returned instead. *)
Lemma getSelectedSystemPrompt_blank_prompt :
  getItem storage_with_blank_prompt
    (system_prompt_key (js "openai") (js "gpt-4o")) = Stored (js "mine")
  /\ find (fun q => jseq (sp_id q) (js "mine"))
       (getSystemPrompts storage_with_blank_prompt) = Some blank_prompt
  /\ getSelectedSystemPrompt (js "openai") (js "gpt-4o")
       storage_with_blank_prompt = DEFAULT_SYSTEM_PROMPTS_0_prompt
  /\ getSelectedSystemPrompt (js "openai") (js "gpt-4o")
       storage_with_blank_prompt <> prompt blank_prompt.
Proof.
  repeat split; [vm_compute; reflexivity.. | vm_compute; discriminate].
Qed.

(** * Further properties *)

(** ** More on the context trimmer *)

Lemma total_cost_drop_S cost (l : list StoredMessage) (i : nat) m :
  l !! i = Some m ->
  total_cost cost (drop i l) = cost m + total_cost cost (drop (S i) l).
Proof. intros Hm. by rewrite (drop_S _ _ _ Hm). Qed.

Section Cutoff.

Variable msgs : list StoredMessage.
Variable available : option Z.

(** Where the loop stops: every message it admitted fitted together with
    the newer ones, and the message before the cut, if there is one, did
    not. *)
Lemma trim_loop_cutoff (n : nat) :
  forall totalTokens : Z,
    (n <= length msgs)%nat ->
    exists k : nat,
      (k <= n)%nat
      /\ trim_loop msgs available n totalTokens (drop n msgs) = drop k msgs
      /\ (forall j, (k <= j < n)%nat ->
            exists a, available = Some a
              /\ totalTokens + total_cost messageTokens (drop j msgs)
                 - total_cost messageTokens (drop n msgs) <= a)
      /\ (forall m, k <> 0%nat ->
            msgs !! (k - 1)%nat = Some m ->
            fits (totalTokens + total_cost messageTokens (drop k msgs)
                  - total_cost messageTokens (drop n msgs))
              (messageTokens m) available = false).
Proof.
  induction n as [|i IH]; intros total Hn.
  - exists 0%nat. repeat split; [lia | intros; lia | intros; lia].
  - cbn [trim_loop].
    destruct (lookup_lt_is_Some_2 msgs i ltac:(lia)) as [m Hm].
    rewrite Hm. pose proof (total_cost_drop_S messageTokens _ _ _ Hm) as Hc.
    destruct (fits total (messageTokens m) available) eqn:Hfit.
    + rewrite <- (drop_S _ _ _ Hm).
      destruct (IH (total + messageTokens m) ltac:(lia))
        as (k & Hk & Heq & Hin & Hout).
      exists k. split; [lia|]. split; [exact Heq|]. split.
      * intros j Hj. destruct (decide (j = i)) as [->|Hji].
        -- destruct available as [a|]; [|discriminate].
           exists a. split; [reflexivity|]. apply fits_spec in Hfit. lia.
        -- destruct (Hin j ltac:(lia)) as (a & Ha & Hle).
           exists a. split; [exact Ha | lia].
      * intros m' Hk0 Hm'. specialize (Hout m' Hk0 Hm').
        replace (total + total_cost messageTokens (drop k msgs)
                 - total_cost messageTokens (drop (S i) msgs))
          with (total + messageTokens m
                + total_cost messageTokens (drop k msgs)
                - total_cost messageTokens (drop i msgs)) by lia.
        exact Hout.
    + exists (S i). split; [lia|]. split; [reflexivity|]. split.
      * intros j Hj. lia.
      * intros m' _ Hm'. replace (S i - 1)%nat with i in Hm' by lia.
        rewrite Hm in Hm'. injection Hm' as <-.
        replace (total + total_cost messageTokens (drop (S i) msgs)
                 - total_cost messageTokens (drop (S i) msgs))
          with total by lia.
        exact Hfit.
Qed.

(** The loop returns everything it walks over when each step fits. *)
Lemma trim_loop_all_fit (a : Z) (n : nat) :
  available = Some a ->
  forall (totalTokens : Z) (trimmed : list StoredMessage),
    (n <= length msgs)%nat ->
    (forall j, (j < n)%nat ->
       totalTokens + total_cost messageTokens (drop j (take n msgs)) <= a) ->
    trim_loop msgs available n totalTokens trimmed = take n msgs ++ trimmed.
Proof.
  intros ->. induction n as [|i IH]; intros total trimmed Hn Hall.
  - reflexivity.
  - cbn [trim_loop].
    destruct (lookup_lt_is_Some_2 msgs i ltac:(lia)) as [m Hm].
    rewrite Hm. rewrite (take_S_r _ _ _ Hm) in Hall |- *.
    assert (length (take i msgs) = i) as Hlen by (rewrite length_take; lia).
    assert (fits total (messageTokens m) (Some a) = true) as ->.
    { apply fits_spec. specialize (Hall i ltac:(lia)).
      rewrite drop_app_length' in Hall by done.
      cbn [total_cost foldr] in Hall. lia. }
    rewrite IH; [by rewrite <- app_assoc | lia |].
    intros j Hj. specialize (Hall j ltac:(lia)).
    rewrite drop_app_le, total_cost_app in Hall by lia.
    cbn [total_cost foldr] in Hall. lia.
Qed.

End Cutoff.

Lemma fits_false total cost a :
  fits total cost (Some a) = false <-> a < total + cost.
Proof. unfold fits. apply Z.leb_gt. Qed.

(** [trimContext] in terms of the index at which the loop stops. *)
Lemma trimContext_index msgs modelName systemPrompt maxTokens :
  let available := availableTokens maxTokens modelName systemPrompt in
  exists k : nat,
    (k <= length msgs)%nat
    /\ trim_loop msgs available (length msgs) 0 [] = drop k msgs
    /\ (forall j, (k <= j < length msgs)%nat ->
          exists a, available = Some a
            /\ total_cost messageTokens (drop j msgs) <= a)
    /\ (forall m, k <> 0%nat -> msgs !! (k - 1)%nat = Some m ->
          fits (total_cost messageTokens (drop k msgs)) (messageTokens m)
            available = false)
    /\ trimContext msgs modelName systemPrompt maxTokens
       = drop (k `min` (length msgs - 1)) msgs.
Proof.
  intros available. subst available.
  destruct (trim_loop_cutoff msgs
              (availableTokens maxTokens modelName systemPrompt)
              (length msgs) 0 ltac:(lia))
    as (k & Hk & Heq & Hin & Hout).
  rewrite drop_all in Heq, Hin, Hout. cbn [total_cost foldr] in Hin, Hout.
  exists k. split; [exact Hk|]. split; [exact Heq|]. split; [|split].
  - intros j Hj. destruct (Hin j Hj) as (a & Ha & Hle).
    exists a. split; [exact Ha | lia].
  - intros m Hk0 Hm. specialize (Hout m Hk0 Hm).
    by rewrite Z.add_0_l, Z.sub_0_r in Hout.
  - destruct (trimContext_cases msgs modelName systemPrompt maxTokens)
      as [(-> & _ & ->)|[(Hw & ->)|(Hw & m & _ & Hm & ->)]].
    + by rewrite drop_nil.
    + rewrite Heq in Hw |- *.
      assert (k < length msgs)%nat as Hlt.
      { destruct (decide (k < length msgs)%nat); [done|].
        rewrite drop_ge in Hw by lia. by destruct Hw. }
      f_equal. lia.
    + rewrite Heq in Hw.
      pose proof (lookup_lt_Some _ _ _ Hm) as Hlt.
      assert (k = length msgs) as ->.
      { apply (f_equal length) in Hw. rewrite length_drop in Hw.
        cbn [length] in Hw. lia. }
      replace (length msgs `min` (length msgs - 1))%nat
        with (length msgs - 1)%nat by lia.
      by rewrite (drop_last_index _ _ Hm).
Qed.

Lemma total_cost_drop_le (l : list StoredMessage) (j k : nat) :
  Forall (fun m => 0 <= messageTokens m) l ->
  (j <= k)%nat ->
  total_cost messageTokens (drop k l) <= total_cost messageTokens (drop j l).
Proof.
  intros Hpos Hjk.
  rewrite <- (take_drop (k - j) (drop j l)), total_cost_app, drop_drop.
  replace (j + (k - j))%nat with k by lia.
  assert (0 <= total_cost messageTokens (take (k - j) (drop j l))).
  { apply total_cost_nonneg. by apply Forall_take, Forall_drop. }
  lia.
Qed.

(** X1.  The cut is hard: when [trimContext] drops the message at index
    [k] and keeps everything after it, and no cost is negative, then that
    message together with the kept ones exceeds the budget, and so does
    every longer suffix of the history. *)
Theorem trimContext_hard_cutoff :
  forall (msgs : list StoredMessage) (modelName : jsstring)
         (systemPrompt : option jsstring) (maxTokens : option Z)
         (k : nat) (a : Z),
    (k < length msgs)%nat ->
    trimContext msgs modelName systemPrompt maxTokens = drop (S k) msgs ->
    availableTokens maxTokens modelName systemPrompt = Some a ->
    Forall (fun m => 0 <= messageTokens m) msgs ->
    forall j, (j <= k)%nat -> a < total_cost messageTokens (drop j msgs).
Proof.
  intros msgs modelName systemPrompt maxTokens k a Hk Hres Ha Hpos j Hj.
  destruct (trimContext_index msgs modelName systemPrompt maxTokens)
    as (kw & Hkw & _ & _ & Hout & Heq).
  rewrite Ha in Hout. rewrite Heq in Hres.
  assert (kw `min` (length msgs - 1) = S k)%nat as Hidx.
  { apply (f_equal length) in Hres. rewrite !length_drop in Hres. lia. }
  pose proof (total_cost_drop_le msgs j k Hpos Hj) as Hmono.
  destruct (lookup_lt_is_Some_2 msgs k ltac:(lia)) as [mk Hmk].
  rewrite (total_cost_drop_S _ _ _ _ Hmk) in Hmono.
  destruct (decide (kw = S k)) as [->|Hne].
  - specialize (Hout mk ltac:(lia)).
    replace (S k - 1)%nat with k in Hout by lia.
    specialize (Hout Hmk). apply fits_false in Hout. lia.
  - assert (kw = length msgs /\ S k = (length msgs - 1)%nat) as [-> Hlast]
      by lia.
    destruct (lookup_lt_is_Some_2 msgs (S k) ltac:(lia)) as [ml Hml].
    specialize (Hout ml ltac:(lia)). rewrite <- Hlast in Hout.
    specialize (Hout Hml). rewrite drop_all in Hout.
    apply fits_false in Hout. cbn [total_cost foldr] in Hout.
    rewrite (total_cost_drop_S _ _ _ _ Hml) in Hmono.
    assert (0 <= total_cost messageTokens (drop (S (S k)) msgs))
      by (apply total_cost_nonneg; by apply Forall_drop).
    assert (0 <= messageTokens mk).
    { rewrite Forall_forall in Hpos. apply Hpos.
      eapply list_elem_of_lookup_2; eauto. }
    lia.
Qed.

Lemma trimContext_hard_cutoff_witness :
  3 < total_cost messageTokens (drop 0 sample_history).
Proof.
  apply (trimContext_hard_cutoff sample_history (js "gpt-4") None (Some 4)
           0%nat 3).
  - vm_compute. lia.
  - vm_compute. reflexivity.
  - vm_compute. reflexivity.
  - repeat constructor; vm_compute; discriminate.
  - lia.
Defined.

(** X2.  Trimming a trimmed history again, for the same model, system
    prompt and override, changes nothing. *)
Theorem trimContext_idempotent :
  forall (msgs : list StoredMessage) (modelName : jsstring)
         (systemPrompt : option jsstring) (maxTokens : option Z),
    trimContext (trimContext msgs modelName systemPrompt maxTokens)
      modelName systemPrompt maxTokens
    = trimContext msgs modelName systemPrompt maxTokens.
Proof.
  intros msgs modelName systemPrompt maxTokens.
  destruct (trimContext_index msgs modelName systemPrompt maxTokens)
    as (k & Hk & Hwalk & Hin & Hout & Heq).
  destruct (trimContext_cases msgs modelName systemPrompt maxTokens)
    as [(-> & _ & ->)|[(Hw & Ht)|(Hw & m & _ & Hm & Ht)]].
  - reflexivity.
  - rewrite Ht, Hwalk in *. set (s := drop k msgs) in *.
    assert (k < length msgs)%nat as Hlt.
    { destruct (decide (k < length msgs)%nat); [done|].
      subst s. rewrite drop_ge in Hw by lia. by destruct Hw. }
    destruct (Hin k ltac:(lia)) as (a & Ha & _).
    pose proof (trim_loop_all_fit s _ a (length s) Ha 0 [] ltac:(lia))
      as Hall.
    rewrite firstn_all, app_nil_r in Hall.
    assert (trim_loop s (availableTokens maxTokens modelName systemPrompt)
              (length s) 0 [] = s) as Hs.
    { apply Hall. intros j Hj. subst s. rewrite length_drop in Hj.
      rewrite drop_drop.
      destruct (Hin (k + j)%nat ltac:(lia)) as (a' & Ha' & Hle).
      rewrite Ha in Ha'. injection Ha' as <-. lia. }
    destruct (trimContext_cases s modelName systemPrompt maxTokens)
      as [(Hs0 & _)|[(_ & ->)|(Hw' & _)]].
    + by destruct Hw.
    + exact Hs.
    + rewrite Hs in Hw'. by destruct Hw.
  - rewrite Ht. rewrite Hwalk in Hw.
    pose proof (lookup_lt_Some _ _ _ Hm) as Hlt.
    assert (k = length msgs) as ->.
    { apply (f_equal length) in Hw. rewrite length_drop in Hw.
      cbn [length] in Hw. lia. }
    specialize (Hout m ltac:(lia) Hm). rewrite drop_all in Hout.
    cbn [total_cost foldr] in Hout.
    unfold trimContext. cbn. by rewrite Hout.
Qed.

Lemma fits_mono total cost (a a' : Z) :
  a <= a' -> fits total cost (Some a) = true ->
  fits total cost (Some a') = true.
Proof. rewrite !fits_spec. lia. Qed.

(** A larger budget never stops the loop earlier. *)
Lemma trim_loop_mono (msgs : list StoredMessage) (a a' : Z) (n : nat) :
  a <= a' ->
  forall totalTokens : Z,
    (n <= length msgs)%nat ->
    exists k k' : nat,
      (k' <= k <= n)%nat
      /\ trim_loop msgs (Some a) n totalTokens (drop n msgs) = drop k msgs
      /\ trim_loop msgs (Some a') n totalTokens (drop n msgs) = drop k' msgs.
Proof.
  intros Hle. induction n as [|i IH]; intros total Hn.
  - exists 0%nat, 0%nat. cbn [trim_loop]. auto.
  - cbn [trim_loop].
    destruct (lookup_lt_is_Some_2 msgs i ltac:(lia)) as [m Hm].
    rewrite Hm.
    destruct (fits total (messageTokens m) (Some a)) eqn:Hfit.
    + rewrite (fits_mono _ _ _ _ Hle Hfit), <- (drop_S _ _ _ Hm).
      destruct (IH (total + messageTokens m) ltac:(lia))
        as (k & k' & Hk & Heq & Heq').
      exists k, k'. split; [lia | auto].
    + destruct (fits total (messageTokens m) (Some a')).
      * rewrite <- (drop_S _ _ _ Hm).
        destruct (trim_loop_suffix msgs (Some a') i
                    (total + messageTokens m) ltac:(lia))
          as (k' & Hk' & Heq' & _).
        exists (S i), k'. split; [lia | auto].
      * exists (S i), (S i). split; [lia | auto].
Qed.

Lemma trimContext_drop_walk msgs modelName systemPrompt maxTokens (k : nat) :
  (k <= length msgs)%nat ->
  trim_loop msgs (availableTokens maxTokens modelName systemPrompt)
    (length msgs) 0 [] = drop k msgs ->
  trimContext msgs modelName systemPrompt maxTokens
  = drop (k `min` (length msgs - 1)) msgs.
Proof.
  intros Hk Hwalk.
  destruct (trimContext_index msgs modelName systemPrompt maxTokens)
    as (k0 & Hk0 & Hwalk0 & _ & _ & ->).
  rewrite Hwalk in Hwalk0. apply (f_equal length) in Hwalk0.
  rewrite !length_drop in Hwalk0. f_equal. lia.
Qed.

(** X3.  With a larger override (both overrides other than 0) nothing that
    was kept is lost: the result for the smaller override is a suffix of
    the result for the larger one. *)
Theorem trimContext_override_monotone :
  forall (msgs : list StoredMessage) (modelName : jsstring)
         (systemPrompt : option jsstring) (n n' : Z),
    n <> 0 -> n' <> 0 -> n <= n' ->
    exists j : nat,
      trimContext msgs modelName systemPrompt (Some n)
      = drop j (trimContext msgs modelName systemPrompt (Some n')).
Proof.
  intros msgs modelName systemPrompt n n' Hn Hn' Hle.
  assert (forall x, x <> 0 ->
            availableTokens (Some x) modelName systemPrompt
            = Some ((4 * x) / 5 - systemTokens systemPrompt)) as Havail.
  { intros x Hx. unfold availableTokens.
    by rewrite contextLimit_override, <- Math_floor_eight_tenths. }
  destruct (trim_loop_mono msgs
              ((4 * n) / 5 - systemTokens systemPrompt)
              ((4 * n') / 5 - systemTokens systemPrompt)
              (length msgs)) with (totalTokens := 0)
    as (k & k' & Hk & Heq & Heq'); [|lia|].
  { assert ((4 * n) / 5 <= (4 * n') / 5) by (apply Z.div_le_mono; lia).
    lia. }
  rewrite drop_all in Heq, Heq'.
  rewrite <- (Havail n Hn) in Heq. rewrite <- (Havail n' Hn') in Heq'.
  rewrite (trimContext_drop_walk msgs modelName systemPrompt (Some n) k
             ltac:(lia) Heq).
  rewrite (trimContext_drop_walk msgs modelName systemPrompt (Some n') k'
             ltac:(lia) Heq').
  exists (k `min` (length msgs - 1) - k' `min` (length msgs - 1))%nat.
  rewrite drop_drop. f_equal. lia.
Qed.

Lemma trimContext_override_monotone_witness :
  exists j : nat,
    trimContext sample_history (js "gpt-4") None (Some 4)
    = drop j (trimContext sample_history (js "gpt-4") None (Some 5)).
Proof.
  apply (trimContext_override_monotone sample_history (js "gpt-4") None 4 5);
    lia.
Defined.

Lemma trimContext_last msgs modelName systemPrompt maxTokens :
  last (trimContext msgs modelName systemPrompt maxTokens) = last msgs.
Proof.
  destruct (trimContext_index msgs modelName systemPrompt maxTokens)
    as (k & _ & _ & _ & _ & ->).
  destruct msgs as [|m0 rest] using rev_ind; [by rewrite drop_nil|].
  rewrite length_app. cbn [length].
  rewrite drop_app_le by lia. by rewrite !last_snoc.
Qed.

(** X4.  The most recent message of the history is always the most recent
    message of the result: it is never trimmed. *)
Theorem trimContext_keeps_latest :
  forall (msgs : list StoredMessage) (modelName : jsstring)
         (systemPrompt : option jsstring) (maxTokens : option Z),
    last (trimContext msgs modelName systemPrompt maxTokens) = last msgs
    /\ (forall m, last msgs = Some m ->
          m ∈ trimContext msgs modelName systemPrompt maxTokens).
Proof.
  intros msgs modelName systemPrompt maxTokens.
  pose proof (trimContext_last msgs modelName systemPrompt maxTokens) as Hl.
  split; [exact Hl|]. intros m Hm. rewrite Hm in Hl.
  rewrite last_Some in Hl. destruct Hl as (l' & ->).
  apply elem_of_app. right. apply list_elem_of_singleton. reflexivity.
Qed.

Lemma trimContext_keeps_latest_witness :
  message_of (js "hello there") None
  ∈ trimContext sample_history (js "gpt-4") None (Some 1).
Proof.
  apply (proj2 (trimContext_keeps_latest sample_history (js "gpt-4") None
                  (Some 1))).
  reflexivity.
Defined.

(** A history whose costs are not negative and sum to the budget or less is
    returned whole. *)
Lemma trimContext_keeps_all msgs modelName systemPrompt maxTokens (a : Z) :
  availableTokens maxTokens modelName systemPrompt = Some a ->
  Forall (fun m => 0 <= messageTokens m) msgs ->
  total_cost messageTokens msgs <= a ->
  trimContext msgs modelName systemPrompt maxTokens = msgs.
Proof.
  intros Ha Hpos Hle.
  pose proof (trim_loop_keeps_all msgs _ a (length msgs) Ha Hpos 0 []
                ltac:(lia)) as Hall.
  rewrite firstn_all, app_nil_r in Hall. specialize (Hall ltac:(lia)).
  destruct (trimContext_cases msgs modelName systemPrompt maxTokens)
    as [(-> & _ & ->)|[(_ & ->)|(Hw & m & Hlast & _)]].
  - reflexivity.
  - exact Hall.
  - rewrite Hall in Hw. rewrite Hw in Hlast. discriminate.
Qed.

Lemma messageTokens_cached (m : StoredMessage) :
  tokens m = None \/ tokens m = Some (estimateTokens (text m)) ->
  messageTokens m = estimateTokens (text m).
Proof.
  unfold messageTokens. intros [-> | ->]; [reflexivity|].
  by destruct (Z.eqb_spec (estimateTokens (text m)) 0).
Qed.

Lemma currentTokens_total_cost (msgs : list StoredMessage) :
  currentTokens msgs = total_cost (fun m => estimateTokens (text m)) msgs.
Proof.
  unfold currentTokens.
  assert (forall acc,
             fold_left (fun sum msg => sum + estimateTokens (text msg)) msgs acc
             = acc + total_cost (fun m => estimateTokens (text m)) msgs)
    as Hgen.
  { induction msgs as [|m l IH]; intros acc; cbn [fold_left].
    - cbn. lia.
    - rewrite IH, total_cost_cons. lia. }
  by rewrite Hgen.
Qed.

(** X5.  When every cached token count is the estimate of its text, and
    the [totalTokens] that [getContextInfo] reports (messages and system
    prompt) is at most 80% of the model's limit, rounded down, then
    [trimContext] as [sendMessage] calls it returns the history whole. *)
Theorem trimContext_within_usage :
  forall (msgs : list StoredMessage) (currentModel currentSystemPrompt : jsstring)
         (limit : Z),
    getContextLimit currentModel = Number limit ->
    Forall (fun m => tokens m = None
                     \/ tokens m = Some (estimateTokens (text m))) msgs ->
    totalTokens msgs currentSystemPrompt
    <= Math_floor (inject_Z limit * (8 # 10)) ->
    trimContext msgs currentModel (Some currentSystemPrompt) None = msgs.
Proof.
  intros msgs model sp limit Hlimit Hcache Htotal.
  assert (Forall (fun m => messageTokens m = estimateTokens (text m)) msgs)
    as Hcost.
  { eapply Forall_impl; [exact Hcache|]. apply messageTokens_cached. }
  assert (total_cost messageTokens msgs = currentTokens msgs) as Hsum.
  { rewrite currentTokens_total_cost.
    clear Hcache Htotal.
    induction Hcost as [|m l Hm _ IH]; [reflexivity|].
    by rewrite !total_cost_cons, Hm, IH. }
  apply (trimContext_keeps_all _ _ _ _
           (Math_floor (inject_Z limit * (8 # 10)) - systemTokens (Some sp))).
  - unfold availableTokens.
    rewrite (proj2 (contextLimit_no_override model)), Hlimit. reflexivity.
  - eapply Forall_impl; [exact Hcost|]. cbn. intros m ->.
    apply estimateTokens_nonneg.
  - rewrite Hsum. unfold totalTokens in Htotal. cbn [systemTokens]. lia.
Qed.

Lemma trimContext_within_usage_witness :
  trimContext sample_history (js "gpt-4") (Some (js "Be brief.")) None
  = sample_history.
Proof.
  apply (trimContext_within_usage sample_history (js "gpt-4")
           (js "Be brief.") 8192).
  - vm_compute. reflexivity.
  - repeat constructor; left; reflexivity.
  - vm_compute. discriminate.
Defined.

Lemma jslength_app (a b : jsstring) :
  jslength (a ++ b) = jslength a + jslength b.
Proof. unfold jslength. rewrite length_app. lia. Qed.

(** X6.  The estimate of a concatenation is at least the estimate of its
    first part, at most the sum of the estimates of the parts, and at
    most one less than that sum. *)
Theorem estimateTokens_concat :
  forall a b : jsstring,
    estimateTokens a <= estimateTokens (a ++ b)
    /\ estimateTokens (a ++ b) <= estimateTokens a + estimateTokens b
    /\ estimateTokens a + estimateTokens b <= estimateTokens (a ++ b) + 1.
Proof.
  intros a b. rewrite !estimateTokens_div, jslength_app.
  assert (0 <= jslength a) by (unfold jslength; lia).
  assert (0 <= jslength b) by (unfold jslength; lia).
  pose proof (Z.div_mod (jslength a + 3) 4 ltac:(lia)).
  pose proof (Z.mod_pos_bound (jslength a + 3) 4 ltac:(lia)).
  pose proof (Z.div_mod (jslength b + 3) 4 ltac:(lia)).
  pose proof (Z.mod_pos_bound (jslength b + 3) 4 ltac:(lia)).
  pose proof (Z.div_mod (jslength a + jslength b + 3) 4 ltac:(lia)).
  pose proof (Z.mod_pos_bound (jslength a + jslength b + 3) 4 ltac:(lia)).
  lia.
Qed.

(** ** More on conversation titles *)

Lemma replace_newlines_idempotent (s : jsstring) :
  replace_newlines (replace_newlines s) = replace_newlines s.
Proof.
  unfold replace_newlines. rewrite map_map. apply map_ext. intros c.
  destruct (N.eqb_spec c 10); [reflexivity|].
  by destruct (N.eqb_spec c 10).
Qed.

Lemma replace_newlines_keeps (c : N) :
  is_trim_space c = false -> (if (c =? 10)%N then 32%N else c) = c.
Proof.
  intros Hc. destruct (N.eqb_spec c 10) as [->|]; [discriminate | done].
Qed.

Lemma head_replace_newlines (s : jsstring) :
  (forall c, head s = Some c -> is_trim_space c = false) ->
  forall c, head (replace_newlines s) = Some c -> is_trim_space c = false.
Proof.
  destruct s as [|c0 s]; [discriminate|]. intros Hs c [= <-].
  specialize (Hs c0 eq_refl). by rewrite replace_newlines_keeps.
Qed.

Lemma last_replace_newlines (s : jsstring) :
  (forall c, last s = Some c -> is_trim_space c = false) ->
  forall c, last (replace_newlines s) = Some c -> is_trim_space c = false.
Proof.
  destruct s as [|c0 s] using rev_ind; [discriminate|].
  intros Hs c. unfold replace_newlines. rewrite map_app. cbn [map].
  rewrite last_snoc. intros [= <-].
  specialize (Hs c0 (last_snoc _ _)). by rewrite replace_newlines_keeps.
Qed.

(** The cleaned first message neither starts nor ends with white space. *)
Lemma cleaned_ends (s : jsstring) :
  (forall c, head (replace_newlines (trim s)) = Some c ->
             is_trim_space c = false)
  /\ (forall c, last (replace_newlines (trim s)) = Some c ->
                is_trim_space c = false).
Proof.
  destruct (trim_decompose s) as (_ & _ & _ & _ & _ & Hhead & Hlast).
  split; [by apply head_replace_newlines | by apply last_replace_newlines].
Qed.

(** X7.  A generated title has at most 50 characters, contains no
    newline, and neither starts nor ends with white space. *)
Theorem generateConversationTitle_bounded :
  forall firstMessage : jsstring,
    jslength (generateConversationTitle firstMessage) <= 50
    /\ (newline ∉ generateConversationTitle firstMessage)
    /\ (forall c, head (generateConversationTitle firstMessage) = Some c ->
                  is_trim_space c = false)
    /\ (forall c, last (generateConversationTitle firstMessage) = Some c ->
                  is_trim_space c = false).
Proof.
  intros s. destruct (cleaned_ends s) as [Hhead Hlast].
  unfold generateConversationTitle.
  set (cleaned := replace_newlines (trim s)) in *.
  destruct (Z.leb_spec (jslength cleaned) 50) as [Hshort|Hlong].
  - repeat split; [exact Hshort | apply replace_newlines_clean | done..].
  - rewrite substring_prefix by lia. change (Z.to_nat (50 - 3)) with 47%nat.
    repeat split.
    + rewrite jslength_app. unfold jslength in *. rewrite length_take.
      change (length (js "...")) with 3%nat. lia.
    + rewrite elem_of_app. intros [Hin|Hin].
      * apply elem_of_take in Hin as (i & Hi & _).
        apply (replace_newlines_clean (trim s)).
        by eapply list_elem_of_lookup_2.
      * change (js "...") with [46%N; 46%N; 46%N] in Hin.
        rewrite !elem_of_cons, elem_of_nil in Hin. unfold newline in Hin.
        by destruct Hin as [|[|[|]]].
    + intros c Hc. apply Hhead.
      destruct cleaned as [|c0 rest];
        [unfold jslength in Hlong; cbn [length] in Hlong; lia | exact Hc].
    + intros c. change (js "...") with ([46%N; 46%N] ++ [46%N]).
      rewrite app_assoc, last_snoc. by intros [= <-].
Qed.

Lemma generateConversationTitle_bounded_witness :
  is_trim_space 104 = false.
Proof.
  apply (proj1 (proj2 (proj2 (generateConversationTitle_bounded (js " hi"))))
           104%N).
  vm_compute. reflexivity.
Defined.

(** X8.  Generating a title from a generated title gives the same
    title. *)
Theorem generateConversationTitle_idempotent :
  forall firstMessage : jsstring,
    generateConversationTitle (generateConversationTitle firstMessage)
    = generateConversationTitle firstMessage.
Proof.
  intros s.
  destruct (generateConversationTitle_bounded s)
    as (Hlen & Hclean & Hhead & Hlast).
  set (t := generateConversationTitle s) in *.
  unfold generateConversationTitle at 1.
  rewrite (trim_fixed t Hhead Hlast).
  assert (replace_newlines t = t) as ->.
  { unfold replace_newlines. rewrite <- (map_id t) at 2.
    apply map_ext_in. intros c Hc.
    destruct (N.eqb_spec c 10) as [->|]; [|done].
    apply list_elem_of_In in Hc. by destruct Hclean. }
  by rewrite (proj2 (Z.leb_le _ _) Hlen).
Qed.

(** ** More on the conversation store *)

Lemma filter_sublist {A : Type} (f : A -> bool) (l : list A) :
  List.filter f l `sublist_of` l.
Proof.
  induction l as [|x l IH]; [constructor|]. cbn [List.filter].
  destruct (f x); by constructor.
Qed.

Lemma elem_of_List_filter {A : Type} (f : A -> bool) (l : list A) (x : A) :
  x ∈ List.filter f l <-> x ∈ l /\ f x = true.
Proof. rewrite !list_elem_of_In. apply filter_In. Qed.

Lemma filter_all {A : Type} (f : A -> bool) (l : list A) :
  Forall (fun x => f x = true) l -> List.filter f l = l.
Proof.
  induction 1 as [|x l Hx _ IH]; [reflexivity|].
  cbn [List.filter]. by rewrite Hx, IH.
Qed.

Lemma jseq_neq (s t : jsstring) : jseq s t = false <-> s <> t.
Proof. unfold jseq. apply bool_decide_eq_false. Qed.

Lemma occurrences_zero (i : jsstring) (l : list Conversation) :
  occurrences i l = 0%nat <-> Forall (fun c => jseq (id c) i = false) l.
Proof.
  split; [|apply occurrences_none].
  unfold occurrences. induction l as [|c l IH]; [constructor|].
  cbn [List.filter]. destruct (jseq (id c) i) eqn:Hc; [discriminate|].
  intros Hl. constructor; [exact Hc | by apply IH].
Qed.

Lemma others_fixed (i : jsstring) (l : list Conversation) :
  occurrences i l = 0%nat -> others i l = l.
Proof.
  intros Hz. apply filter_all. apply occurrences_zero in Hz.
  eapply Forall_impl; [exact Hz|]. cbn. by intros c ->.
Qed.

Lemma occurrences_others (i : jsstring) (l : list Conversation) :
  occurrences i (others i l) = 0%nat.
Proof.
  apply occurrences_zero, Forall_forall. intros c Hc.
  apply elem_of_List_filter in Hc as [_ Hc]. by apply negb_true_iff.
Qed.

Lemma deleteConversation_resolved (conversationId : jsstring)
    (st : AsyncStorage) :
  rejects_writes st = false ->
  exists st' : AsyncStorage,
    deleteConversation conversationId st = Resolved st'
    /\ getConversations st' = others conversationId (getConversations st)
    /\ custom_system_prompts st' = custom_system_prompts st
    /\ plain_items st' = plain_items st
    /\ rejected_reads st' = rejected_reads st
    /\ rejects_writes st' = false.
Proof.
  intros Hw. unfold deleteConversation, setItem_conversations. rewrite Hw.
  eexists. split; [reflexivity|]. repeat split.
Qed.

(** X9.  When the write is accepted, [deleteConversation] leaves exactly
    the stored conversations with another id, in their order; the list is
    unchanged when the id was not stored.  It does not touch the current
    conversation id, which may then name a deleted conversation, nor the
    prompts. *)
Theorem deleteConversation_removes :
  forall (conversationId : jsstring) (st : AsyncStorage),
    rejects_writes st = false ->
    exists st' : AsyncStorage,
      deleteConversation conversationId st = Resolved st'
      /\ (forall c, c ∈ getConversations st'
                    <-> c ∈ getConversations st /\ id c <> conversationId)
      /\ getConversations st' `sublist_of` getConversations st
      /\ (occurrences conversationId (getConversations st) = 0%nat ->
          getConversations st' = getConversations st)
      /\ getCurrentConversationId st' = getCurrentConversationId st
      /\ getSystemPrompts st' = getSystemPrompts st.
Proof.
  intros cid st Hw.
  destruct (deleteConversation_resolved cid st Hw)
    as (st' & Hdel & Hl & Hp & Hi & Hr & _).
  exists st'. split; [exact Hdel|]. rewrite Hl.
  split; [|split; [|split; [|split]]].
  - intros c. unfold others. rewrite elem_of_List_filter.
    rewrite negb_true_iff, jseq_neq. reflexivity.
  - apply filter_sublist.
  - apply others_fixed.
  - unfold getCurrentConversationId, getItem. by rewrite Hi, Hr.
  - unfold getSystemPrompts. by rewrite Hp.
Qed.

Lemma deleteConversation_removes_witness :
  exists st' : AsyncStorage,
    deleteConversation (js "1700000000000") storage_with_conversation
    = Resolved st'
    /\ getConversations st' `sublist_of`
         getConversations storage_with_conversation.
Proof.
  destruct (deleteConversation_removes (js "1700000000000")
              storage_with_conversation eq_refl)
    as (st' & Hdel & _ & Hsub & _).
  by exists st'.
Defined.

Lemma saveConversation_resolved (now : Z) (c : Conversation)
    (st : AsyncStorage) :
  rejects_writes st = false ->
  exists st' : AsyncStorage,
    saveConversation now c st = Resolved st'
    /\ rejects_writes st' = false
    /\ rejected_reads st' = rejected_reads st.
Proof.
  intros Hw. unfold saveConversation, setItem_conversations. rewrite Hw.
  eexists. split; [reflexivity|]. split; reflexivity.
Qed.

(** X10.  Saving a conversation and then deleting its id leaves the
    stored conversations that had another id; if the id was new, the
    stored list is the same as before the save. *)
Theorem deleteConversation_after_save :
  forall (now : Z) (c : Conversation) (st : AsyncStorage),
    rejects_writes st = false ->
    exists st1 st2 : AsyncStorage,
      saveConversation now c st = Resolved st1
      /\ deleteConversation (id c) st1 = Resolved st2
      /\ getConversations st2 = others (id c) (getConversations st)
      /\ (occurrences (id c) (getConversations st) = 0%nat ->
          getConversations st2 = getConversations st).
Proof.
  intros now c st Hw.
  destruct (saveConversation_cases now c st Hw)
    as (st1 & Hsave & _ & _ & Hothers & _).
  destruct (saveConversation_resolved now c st Hw) as (st1' & Hsave' & Hw1 & _).
  rewrite Hsave in Hsave'. injection Hsave' as <-.
  destruct (deleteConversation_resolved (id c) st1 Hw1)
    as (st2 & Hdel & Hl & _).
  exists st1, st2. split; [exact Hsave|]. split; [exact Hdel|].
  rewrite Hl, Hothers. split; [reflexivity | apply others_fixed].
Qed.

Lemma deleteConversation_after_save_witness :
  exists st1 st2 : AsyncStorage,
    saveConversation 2000 sample_conversation empty_storage = Resolved st1
    /\ deleteConversation (id sample_conversation) st1 = Resolved st2
    /\ getConversations st2 = getConversations empty_storage.
Proof.
  destruct (deleteConversation_after_save 2000 sample_conversation
              empty_storage eq_refl)
    as (st1 & st2 & Hsave & Hdel & _ & Hsame).
  exists st1, st2. split; [exact Hsave|]. split; [exact Hdel|].
  apply Hsame. reflexivity.
Defined.

(** X11.  Deleting a conversation's id and then saving the conversation
    stores it last, exactly as passed, after the conversations that had
    another id. *)
Theorem saveConversation_after_delete :
  forall (now : Z) (c : Conversation) (st : AsyncStorage),
    rejects_writes st = false ->
    exists st1 st2 : AsyncStorage,
      deleteConversation (id c) st = Resolved st1
      /\ saveConversation now c st1 = Resolved st2
      /\ getConversations st2 = others (id c) (getConversations st) ++ [c].
Proof.
  intros now c st Hw.
  destruct (deleteConversation_resolved (id c) st Hw)
    as (st1 & Hdel & Hl & _ & _ & _ & Hw1).
  destruct (saveConversation_cases now c st1 Hw1)
    as (st2 & Hsave & _ & _ & _ & Hnew & _).
  exists st1, st2. split; [exact Hdel|]. split; [exact Hsave|].
  rewrite <- Hl. apply Hnew. rewrite Hl. apply occurrences_others.
Qed.

Lemma saveConversation_after_delete_witness :
  exists st1 st2 : AsyncStorage,
    deleteConversation (id sample_conversation) storage_with_conversation
    = Resolved st1
    /\ saveConversation 2000 sample_conversation st1 = Resolved st2
    /\ getConversations st2
       = others (id sample_conversation)
           (getConversations storage_with_conversation)
         ++ [sample_conversation].
Proof.
  exact (saveConversation_after_delete 2000 sample_conversation
           storage_with_conversation eq_refl).
Defined.

Lemma find_app_skip {A : Type} (f : A -> bool) (pre post : list A) (x : A) :
  Forall (fun y => f y = false) pre -> f x = true ->
  find f (pre ++ x :: post) = Some x.
Proof.
  induction 1 as [|y pre Hy _ IH]; intros Hx; cbn [app find].
  - by rewrite Hx.
  - rewrite Hy. by apply IH.
Qed.

(** X12.  After a save that the store accepts, the first stored
    conversation with the saved id is the saved conversation, with its
    [updatedAt] refreshed or not: it has the id, title, messages, provider,
    model, system prompt and creation time that were passed. *)
Theorem saveConversation_then_find :
  forall (now : Z) (c : Conversation) (st : AsyncStorage),
    rejects_writes st = false ->
    exists (st' : AsyncStorage) (x : Conversation),
      saveConversation now c st = Resolved st'
      /\ find (fun y => jseq (id y) (id c)) (getConversations st') = Some x
      /\ (x = c \/ x = with_updatedAt c now)
      /\ id x = id c /\ title x = title c /\ messages x = messages c
      /\ providerId x = providerId c /\ modelName x = modelName c
      /\ systemPrompt x = systemPrompt c /\ createdAt x = createdAt c.
Proof.
  intros now c st Hw.
  destruct (saveConversation_cases now c st Hw)
    as (st' & Hsave & _ & _ & _ & Hnew & Hold).
  destruct (decide (occurrences (id c) (getConversations st) = 0%nat))
    as [Hz|Hnz].
  - exists st', c. split; [exact Hsave|].
    destruct (Hnew Hz) as [Hl _]. rewrite Hl. split.
    + apply find_app_skip; [by apply occurrences_zero | apply jseq_refl].
    + split; [by left | repeat split].
  - destruct (Hold Hnz) as (pre & old & post & _ & Hpre & _ & Hl & _).
    exists st', (with_updatedAt c now). split; [exact Hsave|].
    rewrite Hl. split.
    + apply find_app_skip; [|apply jseq_refl].
      eapply Forall_impl; [exact Hpre|]. cbn. intros y Hy.
      by apply jseq_neq.
    + split; [by right | repeat split].
Qed.

Lemma saveConversation_then_find_witness :
  exists (st' : AsyncStorage) (x : Conversation),
    saveConversation 2000 sample_conversation storage_with_conversation
    = Resolved st'
    /\ find (fun y => jseq (id y) (id sample_conversation))
         (getConversations st') = Some x
    /\ title x = title sample_conversation.
Proof.
  destruct (saveConversation_then_find 2000 sample_conversation
              storage_with_conversation eq_refl)
    as (st' & x & Hsave & Hfind & _ & _ & Htitle & _).
  by exists st', x.
Defined.

Lemma getItem_setItem (st st' : AsyncStorage) (key value : jsstring) :
  setItem st key value = Resolved st' ->
  (forall k, getItem st' k
             = if bool_decide (k ∈ rejected_reads st) then Unreadable
               else if bool_decide (k = key) then Stored value
               else getItem st k)
  /\ stored_conversations st' = stored_conversations st
  /\ custom_system_prompts st' = custom_system_prompts st
  /\ rejects_writes st' = false.
Proof.
  unfold setItem. destruct (rejects_writes st) eqn:Hw; [discriminate|].
  intros [= <-]. split; [|by repeat split].
  intros k. unfold getItem. cbn [rejected_reads plain_items].
  case_bool_decide; [reflexivity|].
  case_bool_decide as Hk.
  - subst k. by rewrite lookup_insert_eq.
  - by rewrite lookup_insert_ne.
Qed.

Lemma getItem_setItem_other (st st' : AsyncStorage) (key value k : jsstring) :
  setItem st key value = Resolved st' -> k <> key ->
  getItem st' k = getItem st k.
Proof.
  intros Hset Hk. destruct (getItem_setItem _ _ _ _ Hset) as [-> _].
  rewrite (bool_decide_eq_false_2 _ Hk).
  unfold getItem. by case_bool_decide.
Qed.

Lemma setItem_resolved (st : AsyncStorage) (key value : jsstring) :
  rejects_writes st = false -> exists st', setItem st key value = Resolved st'.
Proof. intros Hw. unfold setItem. rewrite Hw. by eexists. Qed.

Lemma system_prompt_key_head (p m : jsstring) :
  exists rest, system_prompt_key p m = js "system_prompt_" ++ rest.
Proof. by exists (p ++ js "_" ++ m). Qed.

Lemma system_prompt_key_not_current (p m : jsstring) :
  system_prompt_key p m <> CURRENT_CONVERSATION_KEY.
Proof. discriminate. Qed.

Lemma selected_model_key_not_current (p : jsstring) :
  selected_model_key p <> CURRENT_CONVERSATION_KEY.
Proof. discriminate. Qed.

Lemma system_prompt_key_not_selected_model (p m q : jsstring) :
  system_prompt_key p m <> selected_model_key q.
Proof. discriminate. Qed.

(** X15.  After [setCurrentConversationId] is accepted, and the key can be
    read, [getCurrentConversationId] returns the id that was set; the
    conversations, the prompts, the selected prompts and the selected
    models are as before. *)
Theorem setCurrentConversationId_roundtrip :
  forall (conversationId : jsstring) (st : AsyncStorage),
    rejects_writes st = false ->
    CURRENT_CONVERSATION_KEY ∉ rejected_reads st ->
    exists st' : AsyncStorage,
      setCurrentConversationId conversationId st = Resolved st'
      /\ getCurrentConversationId st' = Some conversationId
      /\ getConversations st' = getConversations st
      /\ getSystemPrompts st' = getSystemPrompts st
      /\ (forall p m, getSelectedSystemPrompt p m st'
                      = getSelectedSystemPrompt p m st)
      /\ (forall p, getSelectedModel p st' = getSelectedModel p st).
Proof.
  intros cid st Hw Hread. unfold setCurrentConversationId.
  destruct (setItem_resolved st CURRENT_CONVERSATION_KEY cid Hw)
    as (st' & Hset).
  destruct (getItem_setItem _ _ _ _ Hset) as (Hget & Hc & Hp & _).
  exists st'. split; [exact Hset|]. repeat split.
  - unfold getCurrentConversationId. rewrite Hget.
    by rewrite bool_decide_eq_false_2, bool_decide_eq_true_2.
  - unfold getConversations. by rewrite Hc.
  - unfold getSystemPrompts. by rewrite Hp.
  - intros p m. unfold getSelectedSystemPrompt, getSystemPrompts.
    rewrite Hp, (getItem_setItem_other _ _ _ _ _ Hset); [reflexivity|].
    apply system_prompt_key_not_current.
  - intros p. unfold getSelectedModel.
    rewrite (getItem_setItem_other _ _ _ _ _ Hset); [reflexivity|].
    apply selected_model_key_not_current.
Qed.

Lemma setCurrentConversationId_roundtrip_witness :
  exists st' : AsyncStorage,
    setCurrentConversationId (js "1700000000000") empty_storage = Resolved st'
    /\ getCurrentConversationId st' = Some (js "1700000000000").
Proof.
  destruct (setCurrentConversationId_roundtrip (js "1700000000000")
              empty_storage eq_refl)
    as (st' & Hset & Hget & _); [apply not_elem_of_empty|].
  by exists st'.
Defined.

(** ** Upserts and unique ids *)

Section Upsert.

Context {A : Type} (key : A -> jsstring).

(** The replace-or-append step that [saveConversation] and
    [saveSystemPrompt] share. *)
Lemma upsert_cases (k : jsstring) (l : list A) (x x' : A) :
  (Forall (fun y => key y <> k) l
   /\ (if 0 <=? findIndex (fun y => jseq (key y) k) l
       then <[Z.to_nat (findIndex (fun y => jseq (key y) k) l) := x']> l
       else l ++ [x]) = l ++ [x])
  \/ (exists pre old post,
         l = pre ++ old :: post
         /\ Forall (fun y => key y <> k) pre
         /\ key old = k
         /\ (if 0 <=? findIndex (fun y => jseq (key y) k) l
             then <[Z.to_nat (findIndex (fun y => jseq (key y) k) l) := x']> l
             else l ++ [x]) = pre ++ x' :: post).
Proof.
  destruct (findIndex_spec (fun y => jseq (key y) k) l)
    as [(Hidx & Hnone)|(pre & old & post & Hl & Hpre & Hold & Hidx)];
    rewrite Hidx.
  - left. split; [|reflexivity].
    eapply Forall_impl; [exact Hnone|]. cbn. intros y. apply jseq_neq.
  - right. exists pre, old, post.
    replace (0 <=? Z.of_nat (length pre)) with true
      by (symmetry; apply Z.leb_le; lia).
    rewrite Nat2Z.id. split; [exact Hl|]. split; [|split].
    + eapply Forall_impl; [exact Hpre|]. cbn. intros y. apply jseq_neq.
    + by apply jseq_eq.
    + subst l. apply insert_middle.
Qed.

Lemma upsert_NoDup (l : list A) (x x' : A) :
  key x' = key x ->
  NoDup (map key l) ->
  NoDup (map key
           (if 0 <=? findIndex (fun y => jseq (key y) (key x)) l
            then <[Z.to_nat (findIndex (fun y => jseq (key y) (key x)) l)
                   := x']> l
            else l ++ [x])).
Proof.
  intros Hkey Hnd.
  destruct (upsert_cases (key x) l x x')
    as [(Hnone & ->)|(pre & old & post & -> & _ & Hold & ->)].
  - rewrite map_app. cbn [map]. apply NoDup_app. split; [exact Hnd|].
    split; [|apply NoDup_singleton].
    intros k Hk Hk'. apply list_elem_of_singleton in Hk'. subst k.
    apply list_elem_of_fmap in Hk as (y & Hy & Hin).
    rewrite Forall_forall in Hnone. by destruct (Hnone y Hin).
  - rewrite map_app in Hnd |- *. cbn [map] in Hnd |- *.
    by rewrite Hkey, <- Hold.
Qed.

Lemma filter_NoDup (f : A -> bool) (l : list A) :
  NoDup (map key l) -> NoDup (map key (List.filter f l)).
Proof.
  intros Hnd. eapply sublist_NoDup; [exact Hnd|].
  apply (fmap_sublist key), filter_sublist.
Qed.

End Upsert.

Lemma perform_unique (call : StoreCall) (st st' : AsyncStorage) :
  perform call st = Resolved st' ->
  NoDup (map id (getConversations st)) ->
  NoDup (map sp_id (getCustomSystemPrompts st)) ->
  NoDup (map id (getConversations st'))
  /\ NoDup (map sp_id (getCustomSystemPrompts st')).
Proof.
  intros Hcall Hconv Hprompt.
  destruct call as [now c|i|i|p|i|p m i]; cbn [perform] in Hcall.
  - unfold saveConversation, setItem_conversations in Hcall.
    destruct (rejects_writes st); [discriminate|]. injection Hcall as <-.
    split; [|exact Hprompt].
    cbn [getConversations stored_conversations].
    by apply (upsert_NoDup id).
  - unfold deleteConversation, setItem_conversations in Hcall.
    destruct (rejects_writes st); [discriminate|]. injection Hcall as <-.
    split; [|exact Hprompt].
    cbn [getConversations stored_conversations].
    by apply (filter_NoDup id).
  - unfold setCurrentConversationId, setItem in Hcall.
    destruct (rejects_writes st); [discriminate|]. injection Hcall as <-.
    by split.
  - unfold saveSystemPrompt, setItem_prompts in Hcall.
    destruct (rejects_writes st); [discriminate|]. injection Hcall as <-.
    split; [exact Hconv|].
    cbn [getCustomSystemPrompts custom_system_prompts].
    by apply (upsert_NoDup sp_id).
  - unfold deleteSystemPrompt, setItem_prompts in Hcall.
    destruct (rejects_writes st); [discriminate|]. injection Hcall as <-.
    split; [exact Hconv|].
    cbn [getCustomSystemPrompts custom_system_prompts].
    by apply (filter_NoDup sp_id).
  - unfold setSelectedSystemPrompt, setItem in Hcall.
    destruct (rejects_writes st); [discriminate|]. injection Hcall as <-.
    by split.
Qed.

(** X13.  If the stored conversations have distinct ids and the stored
    custom prompts have distinct ids, they still have after any sequence
    of calls of the store's operations, whichever of them are rejected. *)
Theorem store_ids_stay_unique :
  forall (calls : list StoreCall) (st : AsyncStorage),
    NoDup (map id (getConversations st)) ->
    NoDup (map sp_id (getCustomSystemPrompts st)) ->
    NoDup (map id (getConversations (perform_all calls st)))
    /\ NoDup (map sp_id (getCustomSystemPrompts (perform_all calls st))).
Proof.
  induction calls as [|call calls IH]; intros st Hconv Hprompt.
  - by split.
  - cbn [perform_all]. destruct (perform call st) as [st'|] eqn:Hcall.
    + destruct (perform_unique call st st' Hcall Hconv Hprompt).
      by apply IH.
    + by apply IH.
Qed.

Lemma store_ids_stay_unique_witness :
  NoDup (map id (getConversations (perform_all sample_calls empty_storage)))
  /\ NoDup (map sp_id
              (getCustomSystemPrompts
                 (perform_all sample_calls empty_storage))).
Proof.
  apply (store_ids_stay_unique sample_calls empty_storage).
  - vm_compute. constructor.
  - vm_compute. constructor.
Defined.

(** ** More on system prompts *)

Lemma split_at_first_underscore (p p' m m' : jsstring) :
  underscore ∉ p -> underscore ∉ p' ->
  p ++ underscore :: m = p' ++ underscore :: m' ->
  p = p' /\ m = m'.
Proof.
  revert p'. induction p as [|c p IH]; intros [|c' p'] Hp Hp' Heq;
    cbn [app] in Heq.
  - by injection Heq as <-.
  - injection Heq as <- _. destruct Hp'. apply elem_of_cons. by left.
  - injection Heq as -> _. destruct Hp. apply elem_of_cons. by left.
  - injection Heq as -> Heq.
    destruct (IH p') as [-> ->]; [| |exact Heq|done].
    + intros Hin. apply Hp. apply elem_of_cons. by right.
    + intros Hin. apply Hp'. apply elem_of_cons. by right.
Qed.

Lemma system_prompt_key_inj (p m p' m' : jsstring) :
  underscore ∉ p -> underscore ∉ p' ->
  system_prompt_key p m = system_prompt_key p' m' ->
  p = p' /\ m = m'.
Proof.
  intros Hp Hp' Heq. unfold system_prompt_key in Heq.
  apply app_inv_head in Heq.
  by apply split_at_first_underscore.
Qed.

(** X16.  The storage key of a selected prompt determines the provider and
    the model when the provider ids contain no underscore, which holds for
    the ids of the built-in providers.  Without that the key is ambiguous:
    ("a_b", "c") and ("a", "b_c") share one key. *)
Theorem system_prompt_key_injective :
  (forall p m p' m' : jsstring,
      underscore ∉ p -> underscore ∉ p' ->
      system_prompt_key p m = system_prompt_key p' m' ->
      p = p' /\ m = m')
  /\ Forall (fun provider => underscore ∉ provider_id provider) AI_PROVIDERS
  /\ system_prompt_key (js "a_b") (js "c")
     = system_prompt_key (js "a") (js "b_c").
Proof.
  split; [exact system_prompt_key_inj|]. split; [|reflexivity].
  repeat constructor; vm_compute; intros Hin;
    repeat (apply elem_of_cons in Hin as [Hin|Hin]; [discriminate|]);
    by apply elem_of_nil in Hin.
Qed.

Lemma system_prompt_key_injective_witness :
  js "openai" = js "openai" /\ js "gpt-4o" = js "gpt-4o".
Proof.
  apply (proj1 system_prompt_key_injective (js "openai") (js "gpt-4o")
           (js "openai") (js "gpt-4o")).
  - refine (bool_decide_unpack _ _). vm_compute. exact I.
  - refine (bool_decide_unpack _ _). vm_compute. exact I.
  - reflexivity.
Defined.

Lemma find_app_l {A : Type} (f : A -> bool) (l1 l2 : list A) (x : A) :
  find f l1 = Some x -> find f (l1 ++ l2) = Some x.
Proof.
  induction l1 as [|y l1 IH]; [discriminate|]. cbn [app find].
  destruct (f y); [done | exact IH].
Qed.

Lemma getSystemPrompts_app (st : AsyncStorage) :
  getSystemPrompts st = DEFAULT_SYSTEM_PROMPTS ++ getCustomSystemPrompts st.
Proof.
  unfold getSystemPrompts, getCustomSystemPrompts.
  destruct (custom_system_prompts st); by rewrite ?app_nil_r.
Qed.

Lemma built_in_found (b : SystemPrompt) :
  b ∈ DEFAULT_SYSTEM_PROMPTS ->
  find (fun q => jseq (sp_id q) (sp_id b)) DEFAULT_SYSTEM_PROMPTS = Some b
  /\ truthy_string (sp_id b) = true
  /\ truthy_string (prompt b) = true.
Proof.
  unfold DEFAULT_SYSTEM_PROMPTS. rewrite !elem_of_cons, elem_of_nil.
  intros [->|[->|[->|[->|[->|[]]]]]]; repeat split; vm_compute; reflexivity.
Qed.

(** X17.  Whatever custom prompts are stored, looking up the id of a
    built-in prompt finds the built-in prompt, and selecting that id
    yields the built-in text: a custom prompt cannot replace a built-in
    one, and no operation of the store removes one. *)
Theorem built_in_prompts_take_precedence :
  forall (st : AsyncStorage) (b : SystemPrompt),
    b ∈ DEFAULT_SYSTEM_PROMPTS ->
    find (fun q => jseq (sp_id q) (sp_id b)) (getSystemPrompts st) = Some b
    /\ (forall providerId modelName,
           getItem st (system_prompt_key providerId modelName)
           = Stored (sp_id b) ->
           getSelectedSystemPrompt providerId modelName st = prompt b).
Proof.
  intros st b Hb. destruct (built_in_found b Hb) as (Hfind & Hid & Htext).
  assert (find (fun q => jseq (sp_id q) (sp_id b)) (getSystemPrompts st)
          = Some b) as Hall.
  { rewrite getSystemPrompts_app. by apply find_app_l. }
  split; [exact Hall|]. intros p m Hitem.
  unfold getSelectedSystemPrompt. rewrite Hitem, Hid, Hall.
  cbn [prompt_or_default]. by rewrite Htext.
Qed.

Lemma built_in_prompts_take_precedence_witness :
  getSelectedSystemPrompt (js "openai") (js "gpt-4o")
    (storage_selecting (js "default") (Stored [shadowing_prompt]))
  = DEFAULT_SYSTEM_PROMPTS_0_prompt.
Proof.
  apply (proj2 (built_in_prompts_take_precedence
                  (storage_selecting (js "default") (Stored [shadowing_prompt]))
                  (hd shadowing_prompt DEFAULT_SYSTEM_PROMPTS)
                  ltac:(apply list_elem_of_here))
           (js "openai") (js "gpt-4o")).
  vm_compute. reflexivity.
Defined.

(** X18.  After [setSelectedSystemPrompt] is accepted, and the key can be
    read, [getSelectedSystemPrompt] for the same pair returns the text of
    the first prompt with the selected id when the id and the text are not
    empty, and the default text when no prompt has the id, since the id is
    not validated.  The selection of any other pair of underscore-free
    provider and model, and the rest of the store, are as before. *)
Theorem setSelectedSystemPrompt_roundtrip :
  forall (providerId modelName promptId : jsstring) (st : AsyncStorage),
    rejects_writes st = false ->
    system_prompt_key providerId modelName ∉ rejected_reads st ->
    exists st' : AsyncStorage,
      setSelectedSystemPrompt providerId modelName promptId st = Resolved st'
      /\ (forall q, promptId <> [] ->
            find (fun x => jseq (sp_id x) promptId) (getSystemPrompts st)
            = Some q ->
            prompt q <> [] ->
            getSelectedSystemPrompt providerId modelName st' = prompt q)
      /\ ((forall q, q ∈ getSystemPrompts st -> sp_id q <> promptId) ->
          getSelectedSystemPrompt providerId modelName st'
          = DEFAULT_SYSTEM_PROMPTS_0_prompt)
      /\ (forall p' m',
            underscore ∉ providerId -> underscore ∉ p' ->
            (p', m') <> (providerId, modelName) ->
            getSelectedSystemPrompt p' m' st'
            = getSelectedSystemPrompt p' m' st)
      /\ getSystemPrompts st' = getSystemPrompts st
      /\ getConversations st' = getConversations st
      /\ getCurrentConversationId st' = getCurrentConversationId st.
Proof.
  intros p m pid st Hw Hread. unfold setSelectedSystemPrompt.
  destruct (setItem_resolved st (system_prompt_key p m) pid Hw)
    as (st' & Hset).
  destruct (getItem_setItem _ _ _ _ Hset) as (Hget & Hc & Hp & _).
  assert (getSystemPrompts st' = getSystemPrompts st) as Hprompts
    by (unfold getSystemPrompts; by rewrite Hp).
  assert (getItem st' (system_prompt_key p m) = Stored pid) as Hitem.
  { rewrite Hget.
    by rewrite bool_decide_eq_false_2, bool_decide_eq_true_2. }
  exists st'. split; [exact Hset|].
  split; [|split; [|split; [|split; [|split]]]].
  - intros q Hpid Hfind Hq. unfold getSelectedSystemPrompt.
    rewrite Hitem, Hprompts, (truthy_string_nonempty _ Hpid), Hfind.
    cbn [prompt_or_default]. by rewrite (truthy_string_nonempty _ Hq).
  - intros Hnone. apply find_None_iff in Hnone.
    unfold getSelectedSystemPrompt. rewrite Hitem, Hprompts, Hnone.
    by destruct (truthy_string pid).
  - intros p' m' Hu Hu' Hne. unfold getSelectedSystemPrompt.
    rewrite Hprompts, (getItem_setItem_other _ _ _ _ _ Hset); [reflexivity|].
    intros Heq. apply system_prompt_key_inj in Heq as [-> ->]; done.
  - exact Hprompts.
  - unfold getConversations. by rewrite Hc.
  - unfold getCurrentConversationId.
    rewrite (getItem_setItem_other _ _ _ _ _ Hset); [reflexivity|].
    intros Heq. symmetry in Heq.
    by apply system_prompt_key_not_current in Heq.
Qed.

Lemma setSelectedSystemPrompt_roundtrip_witness :
  exists st' : AsyncStorage,
    setSelectedSystemPrompt (js "openai") (js "gpt-4o") (js "creative")
      empty_storage = Resolved st'
    /\ getSelectedSystemPrompt (js "openai") (js "gpt-4o") st'
       = prompt (nth 1 DEFAULT_SYSTEM_PROMPTS shadowing_prompt)
    /\ getSelectedSystemPrompt (js "groq") (js "gemma2-9b-it") st'
       = getSelectedSystemPrompt (js "groq") (js "gemma2-9b-it")
           empty_storage.
Proof.
  destruct (setSelectedSystemPrompt_roundtrip (js "openai") (js "gpt-4o")
              (js "creative") empty_storage eq_refl)
    as (st' & Hset & Hfound & _ & Hframe & _); [apply not_elem_of_empty|].
  exists st'. split; [exact Hset|]. split.
  - apply Hfound; [discriminate | vm_compute; reflexivity | discriminate].
  - apply Hframe.
    + refine (bool_decide_unpack _ _). vm_compute. exact I.
    + refine (bool_decide_unpack _ _). vm_compute. exact I.
    + discriminate.
Defined.

Lemma saveSystemPrompt_resolved (p : SystemPrompt) (st : AsyncStorage) :
  rejects_writes st = false ->
  exists st' : AsyncStorage,
    saveSystemPrompt p st = Resolved st'
    /\ rejects_writes st' = false
    /\ rejected_reads st' = rejected_reads st
    /\ plain_items st' = plain_items st
    /\ stored_conversations st' = stored_conversations st
    /\ ((Forall (fun q => sp_id q <> sp_id p) (getCustomSystemPrompts st)
         /\ getCustomSystemPrompts st' = getCustomSystemPrompts st ++ [p])
        \/ (exists pre old post,
               getCustomSystemPrompts st = pre ++ old :: post
               /\ Forall (fun q => sp_id q <> sp_id p) pre
               /\ sp_id old = sp_id p
               /\ getCustomSystemPrompts st' = pre ++ p :: post)).
Proof.
  intros Hw. unfold saveSystemPrompt, setItem_prompts. rewrite Hw.
  eexists. split; [reflexivity|]. do 4 (split; [reflexivity|]).
  cbn [getCustomSystemPrompts custom_system_prompts].
  remember (getCustomSystemPrompts st) as l eqn:El. clear El.
  destruct (upsert_cases sp_id (sp_id p) l p p)
    as [(Hnone & ->)|(pre & old & post & -> & Hpre & Hold & ->)].
  - by left.
  - right. by exists pre, old, post.
Qed.

Lemma setSelectedSystemPrompt_resolved_find
    (providerId modelName promptId : jsstring) (st : AsyncStorage)
    (q : SystemPrompt) :
  rejects_writes st = false ->
  system_prompt_key providerId modelName ∉ rejected_reads st ->
  promptId <> [] ->
  find (fun x => jseq (sp_id x) promptId) (getSystemPrompts st) = Some q ->
  prompt q <> [] ->
  exists st' : AsyncStorage,
    setSelectedSystemPrompt providerId modelName promptId st = Resolved st'
    /\ getSelectedSystemPrompt providerId modelName st' = prompt q.
Proof.
  intros Hw Hread Hpid Hfind Hq. unfold setSelectedSystemPrompt.
  destruct (setItem_resolved st (system_prompt_key providerId modelName)
              promptId Hw) as (st' & Hset).
  destruct (getItem_setItem _ _ _ _ Hset) as (Hget & _ & Hp & _).
  exists st'. split; [exact Hset|].
  unfold getSelectedSystemPrompt, getSystemPrompts. rewrite Hget, Hp.
  rewrite bool_decide_eq_false_2, bool_decide_eq_true_2 by done.
  fold (getSystemPrompts st).
  rewrite (truthy_string_nonempty _ Hpid), Hfind. cbn [prompt_or_default].
  by rewrite (truthy_string_nonempty _ Hq).
Qed.

(** X19.  A custom prompt whose id is not empty and is not a built-in id,
    and whose text is not empty, can be saved and selected: afterwards it
    is among the prompts and [getSelectedSystemPrompt] returns its text. *)
Theorem saveSystemPrompt_then_select :
  forall (p : SystemPrompt) (providerId modelName : jsstring)
         (st : AsyncStorage),
    rejects_writes st = false ->
    system_prompt_key providerId modelName ∉ rejected_reads st ->
    sp_id p <> [] ->
    prompt p <> [] ->
    (forall b, b ∈ DEFAULT_SYSTEM_PROMPTS -> sp_id b <> sp_id p) ->
    exists st1 st2 : AsyncStorage,
      saveSystemPrompt p st = Resolved st1
      /\ setSelectedSystemPrompt providerId modelName (sp_id p) st1
         = Resolved st2
      /\ p ∈ getSystemPrompts st1
      /\ getSelectedSystemPrompt providerId modelName st2 = prompt p.
Proof.
  intros p P M st Hw Hread Hid Htext Hfresh.
  destruct (saveSystemPrompt_resolved p st Hw)
    as (st1 & Hsave & Hw1 & Hr1 & _ & _ & Hcases).
  assert (find (fun x => jseq (sp_id x) (sp_id p)) (getSystemPrompts st1)
          = Some p) as Hfind.
  { rewrite getSystemPrompts_app.
    assert (Forall (fun x => jseq (sp_id x) (sp_id p) = false)
              DEFAULT_SYSTEM_PROMPTS) as Hdef.
    { apply Forall_forall. intros b Hb. apply jseq_neq. by apply Hfresh. }
    destruct Hcases as [(Hnone & ->)|(pre & old & post & _ & Hpre & _ & ->)];
      rewrite app_assoc; apply find_app_skip; try apply jseq_refl;
      apply Forall_app; (split; [exact Hdef|]).
    - eapply Forall_impl; [exact Hnone|]. cbn. intros q. apply jseq_neq.
    - eapply Forall_impl; [exact Hpre|]. cbn. intros q. apply jseq_neq. }
  destruct (setSelectedSystemPrompt_resolved_find P M (sp_id p) st1 p)
    as (st2 & Hset & Hsel); try done; [by rewrite Hr1|].
  exists st1, st2. split; [exact Hsave|]. split; [exact Hset|].
  split; [|exact Hsel].
  apply find_some in Hfind as [Hin _]. by apply list_elem_of_In.
Qed.

Lemma saveSystemPrompt_then_select_witness :
  exists st1 st2 : AsyncStorage,
    saveSystemPrompt brief_prompt empty_storage = Resolved st1
    /\ setSelectedSystemPrompt (js "openai") (js "gpt-4o")
         (sp_id brief_prompt) st1 = Resolved st2
    /\ brief_prompt ∈ getSystemPrompts st1
    /\ getSelectedSystemPrompt (js "openai") (js "gpt-4o") st2
       = prompt brief_prompt.
Proof.
  apply (saveSystemPrompt_then_select brief_prompt (js "openai")
           (js "gpt-4o") empty_storage).
  - reflexivity.
  - apply not_elem_of_empty.
  - discriminate.
  - discriminate.
  - intros b Hb. unfold DEFAULT_SYSTEM_PROMPTS in Hb.
    rewrite !elem_of_cons, elem_of_nil in Hb.
    destruct Hb as [->|[->|[->|[->|[->|[]]]]]]; discriminate.
Defined.

(** X20.  Deleting the custom prompts with an id that is selected for a
    pair (and is not a built-in id) leaves the other prompts, keeps the
    stored preference, and makes [getSelectedSystemPrompt] fall back to the
    default text. *)
Theorem deleteSystemPrompt_falls_back :
  forall (promptId providerId modelName : jsstring) (st : AsyncStorage),
    rejects_writes st = false ->
    (forall b, b ∈ DEFAULT_SYSTEM_PROMPTS -> sp_id b <> promptId) ->
    getItem st (system_prompt_key providerId modelName) = Stored promptId ->
    exists st' : AsyncStorage,
      deleteSystemPrompt promptId st = Resolved st'
      /\ (forall q, q ∈ getSystemPrompts st'
                    <-> q ∈ getSystemPrompts st /\ sp_id q <> promptId)
      /\ getItem st' (system_prompt_key providerId modelName)
         = Stored promptId
      /\ getSelectedSystemPrompt providerId modelName st'
         = DEFAULT_SYSTEM_PROMPTS_0_prompt.
Proof.
  intros pid P M st Hw Hfresh Hitem.
  unfold deleteSystemPrompt, setItem_prompts. rewrite Hw.
  eexists. split; [reflexivity|].
  match goal with |- context [getItem ?s _] => set (st' := s) end.
  assert (forall q, q ∈ getSystemPrompts st'
                    <-> q ∈ getSystemPrompts st /\ sp_id q <> pid) as Hmem.
  { intros q. rewrite !getSystemPrompts_app, !elem_of_app.
    subst st'. cbn [getCustomSystemPrompts custom_system_prompts].
    fold (getCustomSystemPrompts st).
    rewrite elem_of_List_filter, negb_true_iff, jseq_neq.
    specialize (Hfresh q). tauto. }
  assert (getItem st' (system_prompt_key P M) = Stored pid) as Hitem'
    by exact Hitem.
  split; [exact Hmem|]. split; [exact Hitem'|].
  unfold getSelectedSystemPrompt. rewrite Hitem'.
  assert (find (fun q => jseq (sp_id q) pid) (getSystemPrompts st') = None)
    as ->.
  { apply find_None_iff. intros q Hq. by apply Hmem in Hq as [_ Hq]. }
  by destruct (truthy_string pid).
Qed.

Lemma deleteSystemPrompt_falls_back_witness :
  exists st' : AsyncStorage,
    deleteSystemPrompt (js "mine") storage_with_blank_prompt = Resolved st'
    /\ getSelectedSystemPrompt (js "openai") (js "gpt-4o") st'
       = DEFAULT_SYSTEM_PROMPTS_0_prompt.
Proof.
  destruct (deleteSystemPrompt_falls_back (js "mine") (js "openai")
              (js "gpt-4o") storage_with_blank_prompt eq_refl)
    as (st' & Hdel & _ & _ & Hsel).
  - intros b Hb. unfold DEFAULT_SYSTEM_PROMPTS in Hb.
    rewrite !elem_of_cons, elem_of_nil in Hb.
    destruct Hb as [->|[->|[->|[->|[->|[]]]]]]; discriminate.
  - vm_compute. reflexivity.
  - by exists st'.
Defined.

(** ** Providers and models *)

Lemma getProviderById_Some (i : jsstring) (p : AIProvider) :
  getProviderById i = Some p <-> p ∈ AI_PROVIDERS /\ provider_id p = i.
Proof.
  unfold getProviderById. split.
  - intros Hfind. apply find_some in Hfind as [Hin Heq].
    split; [by apply list_elem_of_In | by apply jseq_eq].
  - intros [Hin <-]. revert Hin. unfold AI_PROVIDERS.
    rewrite !elem_of_cons, elem_of_nil.
    intros [->|[->|[->|[->|[]]]]]; reflexivity.
Qed.

Lemma getProviderById_None (i : jsstring) :
  getProviderById i = None <-> i ∉ map provider_id AI_PROVIDERS.
Proof.
  unfold getProviderById. split.
  - intros Hnone Hin. apply list_elem_of_fmap in Hin as (p & -> & Hp).
    apply list_elem_of_In in Hp.
    pose proof (find_none _ _ Hnone p Hp) as Hf. cbn in Hf.
    by rewrite jseq_refl in Hf.
  - intros Hout.
    destruct (find _ AI_PROVIDERS) as [p|] eqn:Hfind; [|reflexivity].
    apply find_some in Hfind as [Hin Heq]. apply jseq_eq in Heq.
    destruct Hout. apply list_elem_of_fmap. exists p.
    split; [done | by apply list_elem_of_In].
Qed.

(** X21.  [getProviderById] returns a provider exactly when it is a
    built-in provider with the given id, and nothing exactly when no
    built-in provider has the id; the ids of the providers are
    distinct. *)
Theorem getProviderById_exact :
  (forall (i : jsstring) (p : AIProvider),
      getProviderById i = Some p <-> p ∈ AI_PROVIDERS /\ provider_id p = i)
  /\ (forall i : jsstring,
         getProviderById i = None <-> i ∉ map provider_id AI_PROVIDERS)
  /\ NoDup (map provider_id AI_PROVIDERS).
Proof.
  split; [exact getProviderById_Some|]. split; [exact getProviderById_None|].
  refine (bool_decide_unpack _ _). vm_compute. exact I.
Qed.

Lemma getProviderById_exact_witness :
  getProviderById (js "mistral") = None.
Proof.
  apply (proj1 (proj2 getProviderById_exact) (js "mistral")).
  refine (bool_decide_unpack _ _). vm_compute. exact I.
Defined.

Lemma startsWith_spec (s searchString : jsstring) :
  startsWith s searchString = true
  <-> exists rest, s = searchString ++ rest.
Proof.
  unfold startsWith. rewrite bool_decide_eq_true. split.
  - intros Htake. exists (drop (length searchString) s).
    rewrite <- Htake at 1. by rewrite take_drop.
  - intros (rest & ->). by rewrite take_app_length.
Qed.

(** X22.  A key that [validateApiKey] accepts belongs to a known
    provider, starts with that provider's prefix and is more than 10
    characters longer than the prefix; no key is accepted for an unknown
    provider; every key accepted for "anthropic" is accepted for "openai";
    and for "groq" the accepted keys are those that start with "gsk_" and
    have at least 30 characters. *)
Theorem validateApiKey_sound :
  (forall providerId apiKey : jsstring,
      validateApiKey providerId apiKey = true ->
      exists provider,
        getProviderById providerId = Some provider
        /\ (exists rest, apiKey = keyPrefix provider ++ rest)
        /\ jslength (keyPrefix provider) + 10 < jslength apiKey)
  /\ (forall providerId apiKey : jsstring,
         getProviderById providerId = None ->
         validateApiKey providerId apiKey = false)
  /\ (forall apiKey : jsstring,
         validateApiKey (js "anthropic") apiKey = true ->
         validateApiKey (js "openai") apiKey = true)
  /\ (forall apiKey : jsstring,
         validateApiKey (js "groq") apiKey = true <->
         (exists rest, apiKey = js "gsk_" ++ rest) /\ 30 <= jslength apiKey).
Proof.
  split; [|split; [|split]].
  - intros i k. unfold validateApiKey.
    destruct (getProviderById i) as [p|] eqn:Hp; [|discriminate].
    intros Hvalid. exists p. split; [reflexivity|].
    apply getProviderById_Some in Hp as [Hin <-].
    revert Hin Hvalid. unfold AI_PROVIDERS.
    rewrite !elem_of_cons, elem_of_nil.
    intros [->|[->|[->|[->|[]]]]];
      cbn [provider_id keyPrefix];
      match goal with
      | |- context [jseq ?a ?b] =>
          let v := eval vm_compute in (jseq a b) in
          change (jseq a b) with v; cbv iota
      end;
      rewrite andb_true_iff, startsWith_spec;
      intros [Hpre Hlen]; (split; [exact Hpre|]);
      first [apply Z.ltb_lt in Hlen | apply Z.leb_le in Hlen];
      revert Hlen; unfold jslength; cbn [js length list_ascii_of_string map];
      lia.
  - intros i k Hnone. unfold validateApiKey. by rewrite Hnone.
  - intros k. unfold validateApiKey.
    change (getProviderById (js "anthropic"))
      with (AI_PROVIDERS !! 1%nat).
    change (getProviderById (js "openai")) with (AI_PROVIDERS !! 0%nat).
    cbn [AI_PROVIDERS lookup list_lookup keyPrefix].
    change (jseq (js "anthropic") (js "groq")) with false.
    change (jseq (js "openai") (js "groq")) with false. cbv iota.
    rewrite !andb_true_iff, !startsWith_spec, !Z.ltb_lt.
    intros [(rest & ->) Hlen]. split.
    + exists (js "ant-" ++ rest). reflexivity.
    + revert Hlen. unfold jslength. cbn [js length list_ascii_of_string map].
      lia.
  - intros k. unfold validateApiKey.
    change (getProviderById (js "groq")) with (AI_PROVIDERS !! 3%nat).
    cbn [AI_PROVIDERS lookup list_lookup keyPrefix].
    change (jseq (js "groq") (js "groq")) with true. cbv iota.
    by rewrite andb_true_iff, startsWith_spec, Z.leb_le.
Qed.

Lemma validateApiKey_sound_witness :
  (exists provider,
      getProviderById (js "openai") = Some provider
      /\ (exists rest, js "sk-0123456789abcdef" = keyPrefix provider ++ rest)
      /\ jslength (keyPrefix provider) + 10 < jslength (js "sk-0123456789abcdef"))
  /\ validateApiKey (js "mistral") (js "sk-0123456789abcdef") = false
  /\ validateApiKey (js "openai") (js "sk-ant-0123456789abcdef") = true.
Proof.
  destruct validateApiKey_sound as (Hsound & Hunknown & Hcross & _).
  split; [|split].
  - apply Hsound. vm_compute. reflexivity.
  - apply Hunknown. vm_compute. reflexivity.
  - apply Hcross. vm_compute. reflexivity.
Defined.

(** X23.  Every predefined model of every provider has an entry of its
    own in the capacity table, so that [getContextLimit] returns its limit,
    at least 4096, and not the fallback; each provider's default model is
    one of its predefined models; and the table has no entry for anything
    but a predefined model. *)
Theorem predefined_models_have_limits :
  (forall provider model,
      provider ∈ AI_PROVIDERS -> model ∈ availableModels provider ->
      exists n, MODEL_CONTEXT_LIMITS !! model_name model = Some n
                /\ getContextLimit (model_name model) = Number n
                /\ 4096 <= n)
  /\ (forall provider,
         provider ∈ AI_PROVIDERS ->
         defaultModel provider ∈ map model_name (availableModels provider))
  /\ (forall name n,
         MODEL_CONTEXT_LIMITS !! name = Some n ->
         exists provider model,
           provider ∈ AI_PROVIDERS /\ model ∈ availableModels provider
           /\ model_name model = name).
Proof.
  split; [|split].
  - intros provider model Hp Hm.
    assert (is_Some (MODEL_CONTEXT_LIMITS !! model_name model)) as [n Hn].
    { assert (Forall (fun p => Forall (fun m =>
                 is_Some (MODEL_CONTEXT_LIMITS !! model_name m))
                 (availableModels p)) AI_PROVIDERS) as Hall.
      { repeat constructor; vm_compute; eauto. }
      rewrite Forall_forall in Hall. specialize (Hall provider Hp).
      rewrite Forall_forall in Hall. exact (Hall model Hm). }
    exists n. split; [exact Hn|]. split.
    + by rewrite getContextLimit_lookup, Hn.
    + by eapply MODEL_CONTEXT_LIMITS_large.
  - intros provider Hp.
    assert (Forall (fun p => defaultModel p
                             ∈ map model_name (availableModels p))
              AI_PROVIDERS) as Hall.
    { repeat constructor; refine (bool_decide_unpack _ _); vm_compute;
        exact I. }
    rewrite Forall_forall in Hall. exact (Hall provider Hp).
  - intros name n Hn. apply elem_of_list_to_map_2 in Hn.
    assert (Forall (fun e : jsstring * Z =>
              e.1 ∈ flat_map (fun p => map model_name (availableModels p))
                      AI_PROVIDERS) MODEL_CONTEXT_LIMITS_entries) as Hall.
    { repeat constructor; refine (bool_decide_unpack _ _); vm_compute;
        exact I. }
    rewrite Forall_forall in Hall. specialize (Hall _ Hn). cbn [fst] in Hall.
    apply list_elem_of_In, in_flat_map in Hall as (provider & Hp & Hin).
    apply in_map_iff in Hin as (model & Hname & Hm).
    exists provider, model. by rewrite <- !list_elem_of_In in *.
Qed.

Lemma predefined_models_have_limits_witness :
  (exists n, MODEL_CONTEXT_LIMITS !! js "gpt-4o" = Some n
             /\ getContextLimit (js "gpt-4o") = Number n /\ 4096 <= n)
  /\ js "gpt-3.5-turbo" ∈ map model_name OPENAI_MODELS.
Proof.
  destruct predefined_models_have_limits as (Hlimit & Hdefault & _).
  split.
  - apply (Hlimit (nth 0 AI_PROVIDERS
                     (Build_AIProvider [] [] [] [] [] [] [] [] [] []))
                  (predefined "gpt-4o" "GPT-4o")).
    + apply list_elem_of_here.
    + apply list_elem_of_here.
  - apply (Hdefault (nth 0 AI_PROVIDERS
                       (Build_AIProvider [] [] [] [] [] [] [] [] [] []))).
    apply list_elem_of_here.
Defined.

Lemma getItem_absent_like (st : AsyncStorage) (key : jsstring) :
  getItem st key = Absent \/ getItem st key = Unreadable
  \/ exists v, getItem st key = Stored v.
Proof. destruct (getItem st key); eauto. Qed.

(** X24.  When no model is stored for a provider, or an empty one, or the
    key cannot be read, [getSelectedModel] returns the provider's default
    model, one of its predefined models and one with a capacity entry, for
    a known provider, and the empty string for an unknown one. *)
Theorem getSelectedModel_fallback :
  forall (providerId : jsstring) (st : AsyncStorage),
    (getItem st (selected_model_key providerId) = Absent
     \/ getItem st (selected_model_key providerId) = Unreadable
     \/ getItem st (selected_model_key providerId) = Stored []) ->
    (forall provider,
        getProviderById providerId = Some provider ->
        getSelectedModel providerId st = defaultModel provider
        /\ defaultModel provider ∈ map model_name (availableModels provider)
        /\ exists n, getContextLimit (getSelectedModel providerId st)
                     = Number n /\ 4096 <= n)
    /\ (getProviderById providerId = None ->
        getSelectedModel providerId st = []).
Proof.
  intros i st Hitem.
  assert (getSelectedModel i st = defaultModel_or_empty (getProviderById i))
    as Hsel.
  { unfold getSelectedModel. by destruct Hitem as [->|[->| ->]]. }
  rewrite Hsel. split.
  - intros provider Hp. rewrite Hp.
    apply getProviderById_Some in Hp as [Hin _].
    assert (Forall (fun p => defaultModel_or_empty (Some p) = defaultModel p
                /\ defaultModel p ∈ map model_name (availableModels p)
                /\ exists n, getContextLimit (defaultModel p) = Number n
                             /\ 4096 <= n) AI_PROVIDERS) as Hall.
    { repeat constructor; try reflexivity;
        try (refine (bool_decide_unpack _ _); vm_compute; exact I);
        eexists; (split; [vm_compute; reflexivity | lia]). }
    rewrite Forall_forall in Hall.
    destruct (Hall provider Hin) as (-> & Hmem & Hlimit). auto.
  - by intros ->.
Qed.

Lemma getSelectedModel_fallback_witness :
  getSelectedModel (js "anthropic") empty_storage
  = js "claude-3-haiku-20240307"
  /\ getSelectedModel (js "mistral") empty_storage = [].
Proof.
  destruct (getSelectedModel_fallback (js "anthropic") empty_storage)
    as (Hknown & _); [left; reflexivity|].
  destruct (getSelectedModel_fallback (js "mistral") empty_storage)
    as (_ & Hunknown); [left; reflexivity|].
  split.
  - apply (Hknown (nth 1 AI_PROVIDERS
                     (Build_AIProvider [] [] [] [] [] [] [] [] [] []))).
    vm_compute. reflexivity.
  - apply Hunknown. vm_compute. reflexivity.
Defined.

Lemma selected_model_key_inj (p q : jsstring) :
  selected_model_key p = selected_model_key q -> p = q.
Proof. unfold selected_model_key. apply app_inv_head. Qed.

(** X25.  After [setSelectedModel] is accepted with a model name that is
    not empty, and the key can be read, [getSelectedModel] returns that
    name; the selections of the other providers, the selected prompts, the
    current conversation id and the conversations are as before. *)
Theorem setSelectedModel_roundtrip :
  forall (providerId modelName : jsstring) (st : AsyncStorage),
    rejects_writes st = false ->
    selected_model_key providerId ∉ rejected_reads st ->
    exists st' : AsyncStorage,
      setSelectedModel providerId modelName st = Resolved st'
      /\ (modelName <> [] -> getSelectedModel providerId st' = modelName)
      /\ (forall q, q <> providerId ->
            getSelectedModel q st' = getSelectedModel q st)
      /\ (forall p m, getSelectedSystemPrompt p m st'
                      = getSelectedSystemPrompt p m st)
      /\ getCurrentConversationId st' = getCurrentConversationId st
      /\ getConversations st' = getConversations st.
Proof.
  intros i name st Hw Hread. unfold setSelectedModel.
  destruct (setItem_resolved st (selected_model_key i) name Hw)
    as (st' & Hset).
  destruct (getItem_setItem _ _ _ _ Hset) as (Hget & Hc & Hp & _).
  exists st'. split; [exact Hset|].
  split; [|split; [|split; [|split]]].
  - intros Hname. unfold getSelectedModel. rewrite Hget.
    rewrite bool_decide_eq_false_2, bool_decide_eq_true_2 by done.
    by rewrite (truthy_string_nonempty _ Hname).
  - intros q Hq. unfold getSelectedModel.
    rewrite (getItem_setItem_other _ _ _ _ _ Hset); [reflexivity|].
    intros Heq. by apply selected_model_key_inj in Heq.
  - intros p m. unfold getSelectedSystemPrompt, getSystemPrompts.
    rewrite Hp, (getItem_setItem_other _ _ _ _ _ Hset); [reflexivity|].
    apply system_prompt_key_not_selected_model.
  - unfold getCurrentConversationId.
    rewrite (getItem_setItem_other _ _ _ _ _ Hset); [reflexivity|].
    intros Heq. symmetry in Heq.
    by apply selected_model_key_not_current in Heq.
  - unfold getConversations. by rewrite Hc.
Qed.

Lemma setSelectedModel_roundtrip_witness :
  exists st' : AsyncStorage,
    setSelectedModel (js "openai") (js "gpt-4") empty_storage = Resolved st'
    /\ getSelectedModel (js "openai") st' = js "gpt-4"
    /\ getSelectedModel (js "groq") st'
       = getSelectedModel (js "groq") empty_storage.
Proof.
  destruct (setSelectedModel_roundtrip (js "openai") (js "gpt-4")
              empty_storage eq_refl)
    as (st' & Hset & Hget & Hframe & _); [apply not_elem_of_empty|].
  exists st'. split; [exact Hset|]. split.
  - apply Hget. discriminate.
  - apply Hframe. discriminate.
Defined.

(** ** Custom models *)

Lemma getCustomModels_setItem (st st' : CustomModels) (p : jsstring)
    (l : list AIModel) :
  setItem_models st p l = Resolved st' ->
  (forall q, getCustomModelsForProvider q st'
             = if bool_decide (q ∈ unreadable_models st) then []
               else if bool_decide (q = p) then l
               else getCustomModelsForProvider q st)
  /\ rejects_model_writes st' = false
  /\ unreadable_models st' = unreadable_models st.
Proof.
  unfold setItem_models.
  destruct (rejects_model_writes st) eqn:Hw; [discriminate|].
  intros [= <-]. split; [|by split].
  intros q. unfold getCustomModelsForProvider.
  cbn [unreadable_models custom_models].
  case_bool_decide; [reflexivity|]. case_bool_decide as Hq.
  - subst q. by rewrite lookup_insert_eq.
  - by rewrite lookup_insert_ne.
Qed.

Lemma getCustomModels_setItem_other (st st' : CustomModels) (p q : jsstring)
    (l : list AIModel) :
  setItem_models st p l = Resolved st' -> q <> p ->
  getCustomModelsForProvider q st' = getCustomModelsForProvider q st.
Proof.
  intros Hset Hq. destruct (getCustomModels_setItem _ _ _ _ Hset) as [-> _].
  rewrite (bool_decide_eq_false_2 _ Hq).
  unfold getCustomModelsForProvider. by case_bool_decide.
Qed.

Lemma find_model_None (name : jsstring) (l : list AIModel) :
  find (fun m => jseq (model_name m) name) l = None
  <-> name ∉ map model_name l.
Proof.
  split.
  - intros Hnone Hin. apply list_elem_of_fmap in Hin as (m & -> & Hm).
    apply list_elem_of_In in Hm.
    pose proof (find_none _ _ Hnone m Hm) as Hf. cbn in Hf.
    by rewrite jseq_refl in Hf.
  - intros Hout. destruct (find _ l) as [m|] eqn:Hfind; [|reflexivity].
    apply find_some in Hfind as [Hin Heq]. apply jseq_eq in Heq.
    destruct Hout. apply list_elem_of_fmap. exists m.
    split; [done | by apply list_elem_of_In].
Qed.

Lemma custom_models_wf_nil : custom_models_wf [].
Proof. split; constructor. Qed.

Lemma custom_models_wf_add (l : list AIModel) (name : jsstring) :
  custom_models_wf l -> name ∉ map model_name l ->
  custom_models_wf
    (l ++ [ {| model_id := js "custom_" ++ name; model_name := name;
               model_displayName := name; isCustom := Some true |} ]).
Proof.
  intros [Hnd Hall] Hfresh. split.
  - rewrite map_app. cbn [map model_name]. apply NoDup_app.
    split; [exact Hnd|]. split; [|apply NoDup_singleton].
    intros k Hk Hk'. apply list_elem_of_singleton in Hk'. by subst k.
  - apply Forall_app. split; [exact Hall|]. by repeat constructor.
Qed.

Lemma custom_models_wf_filter (f : AIModel -> bool) (l : list AIModel) :
  custom_models_wf l -> custom_models_wf (List.filter f l).
Proof.
  intros [Hnd Hall]. split; [by apply (filter_NoDup model_name)|].
  rewrite Forall_forall in Hall |- *. intros m Hm.
  apply elem_of_List_filter in Hm as [Hm _]. by apply Hall.
Qed.

Lemma perform_model_wf (call : ModelCall) (st st' : CustomModels) :
  perform_model call st = Resolved st' ->
  (forall p, custom_models_wf (getCustomModelsForProvider p st)) ->
  forall p, custom_models_wf (getCustomModelsForProvider p st').
Proof.
  intros Hcall Hwf q. destruct call as [p name|p mid];
    cbn [perform_model] in Hcall.
  - unfold addCustomModel in Hcall.
    destruct (find _ (getCustomModelsForProvider p st)) eqn:Hfind;
      [discriminate|].
    apply find_model_None in Hfind.
    destruct (getCustomModels_setItem _ _ _ _ Hcall) as [-> _].
    case_bool_decide; [apply custom_models_wf_nil|].
    case_bool_decide; [|apply Hwf].
    by apply custom_models_wf_add.
  - unfold removeCustomModel in Hcall.
    destruct (getCustomModels_setItem _ _ _ _ Hcall) as [-> _].
    case_bool_decide; [apply custom_models_wf_nil|].
    case_bool_decide; [|apply Hwf].
    by apply custom_models_wf_filter.
Qed.

(** X26.  If for every provider the custom models have distinct names,
    each with the id [custom_<name>] and marked custom, this still holds
    after any sequence of [addCustomModel] and [removeCustomModel] calls,
    whichever of them are rejected. *)
Theorem custom_models_stay_well_formed :
  forall (calls : list ModelCall) (st : CustomModels),
    (forall p, custom_models_wf (getCustomModelsForProvider p st)) ->
    forall p,
      custom_models_wf (getCustomModelsForProvider p (perform_models calls st)).
Proof.
  induction calls as [|call calls IH]; intros st Hwf; [exact Hwf|].
  cbn [perform_models]. destruct (perform_model call st) as [st'|] eqn:Hcall.
  - apply IH. by eapply perform_model_wf.
  - by apply IH.
Qed.

Lemma custom_models_stay_well_formed_witness :
  custom_models_wf
    (getCustomModelsForProvider (js "openai")
       (perform_models sample_model_calls empty_models)).
Proof.
  apply (custom_models_stay_well_formed sample_model_calls empty_models).
  intros p. vm_compute. split; constructor.
Defined.

(** X27.  [addCustomModel] rejects a name that a custom model of the
    provider already has.  Otherwise it appends a model with that name and
    the id [custom_<name>] to the provider's custom models only; for a
    known provider the model is then listed last by
    [getAvailableModelsForProvider], and for an unknown provider the call
    succeeds all the same but nothing is ever listed. *)
Theorem addCustomModel_listed :
  forall (providerId modelName : jsstring) (st : CustomModels),
    rejects_model_writes st = false ->
    providerId ∉ unreadable_models st ->
    (modelName ∈ map model_name (getCustomModelsForProvider providerId st) ->
     addCustomModel providerId modelName st = Rejected)
    /\ (modelName ∉ map model_name (getCustomModelsForProvider providerId st)
        ->
        exists (st' : CustomModels) (newModel : AIModel),
          addCustomModel providerId modelName st = Resolved st'
          /\ model_name newModel = modelName
          /\ model_id newModel = js "custom_" ++ modelName
          /\ getCustomModelsForProvider providerId st'
             = getCustomModelsForProvider providerId st ++ [newModel]
          /\ (forall q, q <> providerId ->
                getCustomModelsForProvider q st'
                = getCustomModelsForProvider q st)
          /\ (forall provider,
                getProviderById providerId = Some provider ->
                getAvailableModelsForProvider providerId st'
                = getAvailableModelsForProvider providerId st ++ [newModel])
          /\ (getProviderById providerId = None ->
              getAvailableModelsForProvider providerId st' = [])).
Proof.
  intros p name st Hw Hread. split.
  - intros Hin. unfold addCustomModel.
    destruct (find _ (getCustomModelsForProvider p st)) eqn:Hfind;
      [reflexivity|].
    apply find_model_None in Hfind. by destruct Hfind.
  - intros Hfresh. unfold addCustomModel.
    rewrite (proj2 (find_model_None _ _) Hfresh).
    destruct (setItem_models st p _) as [st'|] eqn:Hadd;
      [|unfold setItem_models in Hadd; by rewrite Hw in Hadd].
    destruct (getCustomModels_setItem _ _ _ _ Hadd) as (Hget & _ & _).
    exists st', {| model_id := js "custom_" ++ name; model_name := name;
                   model_displayName := name; isCustom := Some true |}.
    assert (getCustomModelsForProvider p st'
            = getCustomModelsForProvider p st
              ++ [ {| model_id := js "custom_" ++ name; model_name := name;
                      model_displayName := name; isCustom := Some true |} ])
      as Hp.
    { rewrite Hget.
      by rewrite bool_decide_eq_false_2, bool_decide_eq_true_2. }
    split; [reflexivity|]. split; [reflexivity|]. split; [reflexivity|].
    split; [exact Hp|]. split; [|split].
    + intros q Hq. apply (getCustomModels_setItem_other _ _ _ _ _ Hadd Hq).
    + intros provider Hprov. unfold getAvailableModelsForProvider.
      by rewrite Hprov, Hp, app_assoc.
    + intros Hnone. unfold getAvailableModelsForProvider. by rewrite Hnone.
Qed.

Lemma addCustomModel_listed_witness :
  exists (st' : CustomModels) (newModel : AIModel),
    addCustomModel (js "openai") (js "my-model") empty_models = Resolved st'
    /\ model_id newModel = js "custom_my-model"
    /\ getAvailableModelsForProvider (js "openai") st'
       = getAvailableModelsForProvider (js "openai") empty_models
         ++ [newModel].
Proof.
  destruct (addCustomModel_listed (js "openai") (js "my-model") empty_models
              eq_refl)
    as (_ & Hnew); [apply not_elem_of_empty|].
  destruct Hnew as (st' & newModel & Hadd & _ & Hid & _ & _ & Hlisted & _).
  - vm_compute. apply not_elem_of_nil.
  - exists st', newModel. split; [exact Hadd|]. split; [exact Hid|].
    apply (Hlisted (nth 0 AI_PROVIDERS
                      (Build_AIProvider [] [] [] [] [] [] [] [] [] []))).
    vm_compute. reflexivity.
Defined.

(** X28.  On well-formed custom models, adding a model with a new name
    and then removing the id [custom_<name>] gives back the custom models
    of every provider. *)
Theorem removeCustomModel_after_add :
  forall (providerId modelName : jsstring) (st : CustomModels),
    rejects_model_writes st = false ->
    providerId ∉ unreadable_models st ->
    custom_models_wf (getCustomModelsForProvider providerId st) ->
    modelName ∉ map model_name (getCustomModelsForProvider providerId st) ->
    exists st1 st2 : CustomModels,
      addCustomModel providerId modelName st = Resolved st1
      /\ removeCustomModel providerId (js "custom_" ++ modelName) st1
         = Resolved st2
      /\ getCustomModelsForProvider providerId st2
         = getCustomModelsForProvider providerId st
      /\ (forall q, q <> providerId ->
            getCustomModelsForProvider q st2
            = getCustomModelsForProvider q st).
Proof.
  intros p name st Hw Hread [_ Hids] Hfresh.
  unfold addCustomModel. rewrite (proj2 (find_model_None _ _) Hfresh).
  destruct (setItem_models st p _) as [st1|] eqn:Hadd;
    [|unfold setItem_models in Hadd; by rewrite Hw in Hadd].
  destruct (getCustomModels_setItem _ _ _ _ Hadd) as (Hget1 & Hw1 & Hr1).
  assert (exists st2,
             removeCustomModel p (js "custom_" ++ name) st1 = Resolved st2
             /\ setItem_models st1 p
                  (List.filter
                     (fun m => negb (jseq (model_id m) (js "custom_" ++ name)))
                     (getCustomModelsForProvider p st1)) = Resolved st2)
    as (st2 & Hrem' & Hrem).
  { unfold removeCustomModel, setItem_models. rewrite Hw1. by eexists. }
  destruct (getCustomModels_setItem _ _ _ _ Hrem) as (Hget2 & _ & _).
  exists st1, st2. split; [reflexivity|]. split; [exact Hrem'|]. split.
  - rewrite Hget2, Hr1.
    rewrite bool_decide_eq_false_2, bool_decide_eq_true_2 by done.
    rewrite Hget1.
    rewrite bool_decide_eq_false_2, bool_decide_eq_true_2 by done.
    rewrite List.filter_app. cbn [List.filter model_id].
    rewrite jseq_refl. cbn [negb]. rewrite app_nil_r.
    apply filter_all. rewrite Forall_forall in Hids |- *.
    intros m Hm. destruct (Hids m Hm) as [-> _].
    apply negb_true_iff, jseq_neq. intros Heq. apply app_inv_head in Heq.
    apply Hfresh. apply list_elem_of_fmap. by exists m.
  - intros q Hq.
    rewrite (getCustomModels_setItem_other _ _ _ _ _ Hrem Hq).
    apply (getCustomModels_setItem_other _ _ _ _ _ Hadd Hq).
Qed.

Lemma removeCustomModel_after_add_witness :
  exists st1 st2 : CustomModels,
    addCustomModel (js "openai") (js "my-model") empty_models = Resolved st1
    /\ removeCustomModel (js "openai") (js "custom_" ++ js "my-model") st1
       = Resolved st2
    /\ getCustomModelsForProvider (js "openai") st2
       = getCustomModelsForProvider (js "openai") empty_models.
Proof.
  destruct (removeCustomModel_after_add (js "openai") (js "my-model")
              empty_models eq_refl)
    as (st1 & st2 & Hadd & Hrem & Hsame & _).
  - apply not_elem_of_empty.
  - vm_compute. split; constructor.
  - vm_compute. apply not_elem_of_nil.
  - by exists st1, st2.
Defined.

(** ** The request that is sent *)

Lemma turn_of_with_tokens (m : StoredMessage) :
  turn_of (with_tokens m) = turn_of m.
Proof. reflexivity. Qed.

Lemma filter_system_turns (l : list StoredMessage) :
  List.filter (fun msg => role_eqb (role msg) system) (map turn_of l) = []
  /\ List.filter (fun msg => negb (role_eqb (role msg) system))
       (map turn_of l) = map turn_of l.
Proof.
  split.
  - apply filter_none, Forall_forall. intros t Ht.
    apply list_elem_of_fmap in Ht as (m & -> & _).
    unfold turn_of. cbn [role]. by destruct (isUser m).
  - apply filter_all, Forall_forall. intros t Ht.
    apply list_elem_of_fmap in Ht as (m & -> & _).
    unfold turn_of. cbn [role]. by destruct (isUser m).
Qed.

Lemma last_map {A B : Type} (f : A -> B) (l : list A) :
  last (map f l) = f <$> last l.
Proof.
  destruct l as [|x l] using rev_ind; [reflexivity|].
  rewrite map_app. cbn [map]. by rewrite !last_snoc.
Qed.

(** X29.  The history that [sendMessage] sends always ends with the user's
    new message; it has one system turn, in front, exactly when the system
    prompt is not empty, and its other turns are those of a suffix of the
    stored messages followed by the new one. *)
Theorem conversationHistory_sends_latest :
  forall (storedMessages : list StoredMessage) (userMessage : StoredMessage)
         (currentModel currentSystemPrompt : jsstring),
    last (conversationHistory storedMessages userMessage currentModel
            currentSystemPrompt)
    = Some (turn_of userMessage)
    /\ List.filter (fun msg => role_eqb (role msg) system)
         (conversationHistory storedMessages userMessage currentModel
            currentSystemPrompt)
       = (if truthy_string currentSystemPrompt
          then [ {| role := system; content := currentSystemPrompt |} ]
          else [])
    /\ (currentSystemPrompt <> [] ->
        head (conversationHistory storedMessages userMessage currentModel
                currentSystemPrompt)
        = Some {| role := system; content := currentSystemPrompt |})
    /\ exists k : nat,
         (k <= length storedMessages)%nat
         /\ List.filter (fun msg => negb (role_eqb (role msg) system))
              (conversationHistory storedMessages userMessage currentModel
                 currentSystemPrompt)
            = map turn_of (drop k (storedMessages ++ [with_tokens userMessage])).
Proof.
  intros stored u model sp. unfold conversationHistory.
  set (all := stored ++ [with_tokens u]).
  set (trimmed := trimContext all model (Some sp) None).
  assert (last trimmed = Some (with_tokens u)) as Hlast.
  { subst trimmed. rewrite trimContext_last. subst all. apply last_snoc. }
  destruct (filter_system_turns trimmed) as [Hsys Hturns].
  split; [|split; [|split]].
  - assert (map turn_of trimmed <> []) as Hne.
    { destruct trimmed; [discriminate | discriminate]. }
    rewrite last_app.
    rewrite last_map, Hlast. reflexivity.
  - rewrite List.filter_app, Hsys, app_nil_r.
    by destruct (truthy_string sp).
  - intros Hsp. by rewrite (truthy_string_nonempty _ Hsp).
  - destruct (trimContext_index all model (Some sp) None)
      as (k & Hk & _ & _ & _ & Heq).
    exists (k `min` (length all - 1))%nat. split.
    + subst all. rewrite length_app. cbn [length]. lia.
    + rewrite List.filter_app, Hturns. fold trimmed in Heq. rewrite <- Heq.
      by destruct (truthy_string sp).
Qed.

Lemma conversationHistory_sends_latest_witness :
  head (conversationHistory sample_history (message_of (js "bye") None)
          (js "gpt-4") (js "Be brief."))
  = Some {| role := system; content := js "Be brief." |}.
Proof.
  apply (proj1 (proj2 (proj2 (conversationHistory_sends_latest sample_history
                                (message_of (js "bye") None) (js "gpt-4")
                                (js "Be brief."))))).
  discriminate.
Defined.

(** X30.  [callAnthropic] sends no system turn among [messages], keeps
    the other turns in order, and sets no [system] field when there is no
    system turn.  For the history that [sendMessage] builds, [system] is
    the system prompt when it is not empty and is not set otherwise, and
    [messages] are the trimmed turns. *)
Theorem anthropic_request_of_history :
  (forall conversation : list ChatMessage,
      Forall (fun msg => role msg <> system)
        (snd (anthropic_request conversation))
      /\ snd (anthropic_request conversation) `sublist_of` conversation
      /\ (Forall (fun msg => role msg <> system) conversation ->
          anthropic_request conversation = (None, conversation)))
  /\ (forall (storedMessages : list StoredMessage)
             (userMessage : StoredMessage)
             (currentModel currentSystemPrompt : jsstring),
         anthropic_request
           (conversationHistory storedMessages userMessage currentModel
              currentSystemPrompt)
         = (if truthy_string currentSystemPrompt
            then Some currentSystemPrompt else None,
            map turn_of
              (trimContext (storedMessages ++ [with_tokens userMessage])
                 currentModel (Some currentSystemPrompt) None))).
Proof.
  split.
  - intros conversation. unfold anthropic_request. cbn [fst snd].
    split; [|split].
    + apply Forall_forall. intros msg Hmsg.
      apply elem_of_List_filter in Hmsg as [_ Hrole].
      intros Heq. rewrite Heq in Hrole. discriminate.
    + apply filter_sublist.
    + intros Hnone.
      rewrite (filter_none _ conversation), (filter_all _ conversation);
        [reflexivity | |].
      * eapply Forall_impl; [exact Hnone|]. cbn. intros msg Hmsg.
        by destruct (role msg).
      * eapply Forall_impl; [exact Hnone|]. cbn. intros msg Hmsg.
        by destruct (role msg).
  - intros stored u model sp. unfold conversationHistory, anthropic_request.
    set (trimmed := trimContext (stored ++ [with_tokens u]) model (Some sp)
                      None).
    destruct (filter_system_turns trimmed) as [Hsys Hturns].
    rewrite !List.filter_app, Hsys, Hturns, app_nil_r.
    destruct sp as [|c sp]; reflexivity.
Qed.

Lemma anthropic_request_of_history_witness :
  anthropic_request (map turn_of sample_history)
  = (None, map turn_of sample_history).
Proof.
  apply (proj2 (proj2 (proj1 anthropic_request_of_history
                         (map turn_of sample_history)))).
  repeat constructor; discriminate.
Defined.

Lemma google_contents_turns (l : list StoredMessage) :
  google_contents (map turn_of l)
  = map (fun m => (if isUser m then gemini_user else gemini_model, text m)) l.
Proof.
  unfold google_contents. induction l as [|m l IH]; [reflexivity|].
  cbn [map flat_map]. rewrite IH. unfold turn_of at 1. cbn [role content].
  by destruct (isUser m).
Qed.

(** X14.  [callGoogle] sends one part for each turn and one more for each
    system turn.  For the history that [sendMessage] builds, the parts are
    the marked system prompt and its acknowledgement, when the prompt is
    not empty, followed by the trimmed turns, and the last part is the
    user's new message. *)
Theorem google_contents_of_history :
  (forall conversation : list ChatMessage,
      length (google_contents conversation)
      = (length conversation
         + length (List.filter (fun msg => role_eqb (role msg) system)
                     conversation))%nat)
  /\ (forall (storedMessages : list StoredMessage)
             (userMessage : StoredMessage)
             (currentModel currentSystemPrompt : jsstring),
         google_contents
           (conversationHistory storedMessages userMessage currentModel
              currentSystemPrompt)
         = (if truthy_string currentSystemPrompt
            then [ (gemini_user, js "[SYSTEM]: " ++ currentSystemPrompt);
                   (gemini_model,
                    js "I understand and will follow these instructions.") ]
            else [])
           ++ map (fun m =>
                     (if isUser m then gemini_user else gemini_model, text m))
                (trimContext (storedMessages ++ [with_tokens userMessage])
                   currentModel (Some currentSystemPrompt) None)
         /\ last (google_contents
                    (conversationHistory storedMessages userMessage
                       currentModel currentSystemPrompt))
            = Some (if isUser userMessage then gemini_user else gemini_model,
                    text userMessage)).
Proof.
  split.
  - intros conversation. unfold google_contents.
    induction conversation as [|msg l IH]; [reflexivity|].
    cbn [flat_map List.filter]. rewrite length_app, IH.
    destruct (role msg); cbn [role_eqb length]; lia.
  - intros stored u model sp.
    assert (google_contents (conversationHistory stored u model sp)
            = (if truthy_string sp
               then [ (gemini_user, js "[SYSTEM]: " ++ sp);
                      (gemini_model,
                       js "I understand and will follow these instructions.") ]
               else [])
              ++ map (fun m =>
                        (if isUser m then gemini_user else gemini_model,
                         text m))
                   (trimContext (stored ++ [with_tokens u]) model (Some sp)
                      None)) as Heq.
    { unfold conversationHistory. unfold google_contents at 1.
      rewrite flat_map_app. fold (google_contents
        (map turn_of (trimContext (stored ++ [with_tokens u]) model (Some sp)
                        None))).
      rewrite google_contents_turns. by destruct (truthy_string sp). }
    split; [exact Heq|]. rewrite Heq, last_app, last_map, trimContext_last.
    by rewrite last_snoc.
Qed.
